(** * ai4boundaries: a model of [src/ai4boundaries/functions.py]

    The module holds one public function, [download_ai4boundaries], which
    validates its arguments, selects the seed URLs, scrapes the remote
    directory listings, creates the local folders and downloads the files,
    with one retry pass.  The Python code is embedded here as executable
    Rocq definitions: strings are [string], Python lists are [list], and
    the effects of the program (network requests, folder creation, file
    writes, sleeping) are threaded through an explicit store.  Console
    output ([print], [tqdm]) is not modelled. *)

From Stdlib Require Import String Ascii List Bool Arith Lia.
From Stdlib Require Import Strings.Byte.
Import ListNotations.
Local Open Scope string_scope.
Local Open Scope list_scope.

(** ** Python string operations *)

Module PyStr.

(** [s.startswith(p)] is [String.prefix p s]. *)
Definition startswith (s p : string) : bool := prefix p s.

(** [s.endswith(suf)]: some tail of [s] is [suf]. *)
Fixpoint endswith (s suf : string) : bool :=
  if (s =? suf)%string then true
  else match s with
       | EmptyString => false
       | String _ s' => endswith s' suf
       end.

(** [sub in s]: [sub] occurs somewhere in [s]. *)
Fixpoint contains (sub s : string) : bool :=
  prefix sub s ||
  match s with
  | EmptyString => false
  | String _ s' => contains sub s'
  end.

(** [s.replace(old, new)] replaces every occurrence of [old], scanning
    from the left without overlap.  [skip] counts the characters of a
    matched occurrence that are still to be passed over. *)
Fixpoint replace_from (old new : string) (skip : nat) (s : string) : string :=
  match s with
  | EmptyString => EmptyString
  | String c s' =>
      match skip with
      | S k => replace_from old new k s'
      | O =>
          if prefix old s
          then (new ++ replace_from old new (String.length old - 1) s')%string
          else String c (replace_from old new 0 s')
      end
  end.

(** With an empty [old], Python puts [new] before every character and at
    the end. *)
Fixpoint intersperse (new s : string) : string :=
  (new ++ match s with
          | EmptyString => EmptyString
          | String c s' => String c (intersperse new s')
          end)%string.

Definition replace (old new s : string) : string :=
  match old with
  | EmptyString => intersperse new s
  | String _ _ => replace_from old new 0 s
  end.

(** [x in l] on a list of strings. *)
Definition mem (x : string) (l : list string) : bool :=
  existsb (String.eqb x) l.

End PyStr.
Import PyStr.

(** ** Constants and path translation *)

Definition BASE_URL : string :=
  "https://jeodpp.jrc.ec.europa.eu/ftp/jrc-opendata/DRLL/AI4BOUNDARIES/".

Definition valid_sensors : list string := ["All"; "ortho"; "s2"].
Definition valid_countries : list string :=
  ["All"; "AT"; "ES"; "FR"; "LU"; "NL"; "SE"; "SI"].

(** The replacement for [BASE_URL]: [dir] if it ends with a slash,
    [dir + '/'] otherwise (both branches of lines 100-103, 114-117). *)
Definition root_prefix (dir : string) : string :=
  if endswith dir "/" then dir else (dir ++ "/")%string.

(** Lines 100-105: the folders to create.
    [[i.replace(BASE_URL, dir) for i in urls if not i.endswith('DRLL/')]]
    then
    [[subdir.replace('DRLL/', '') for subdir in subdirs if not 'ftp' in subdir]]. *)
Definition subdirs_replaced (dir : string) (urls : list string) : list string :=
  map (fun i => replace BASE_URL (root_prefix dir) i)
      (filter (fun i => negb (endswith i "DRLL/")) urls).

Definition subdirs (dir : string) (urls : list string) : list string :=
  map (fun subdir => replace "DRLL/" "" subdir)
      (filter (fun subdir => negb (contains "ftp" subdir))
              (subdirs_replaced dir urls)).

(** The translation of one directory URL that passes both filters. *)
Definition subdir_path (dir i : string) : string :=
  replace "DRLL/" "" (replace BASE_URL (root_prefix dir) i).

(** Lines 114-117 and 127-130: [fn = url_fn.replace(BASE_URL, dir)]. *)
Definition fn_of (dir url_fn : string) : string :=
  replace BASE_URL (root_prefix dir) url_fn.

(** ** Seed selection (lines 48-70) *)

Definition select_urls (sensor country : string) : list string :=
  if (sensor =? "All")%string && (country =? "All")%string then
    [BASE_URL]
  else if (sensor =? "ortho")%string then
    if (country =? "All")%string then
      [(BASE_URL ++ "orthophoto/")%string]
    else
      [(BASE_URL ++ "orthophoto/images/" ++ country ++ "/")%string;
       (BASE_URL ++ "orthophoto/masks/" ++ country ++ "/")%string]
  else if (sensor =? "s2")%string then
    if (country =? "All")%string then
      [(BASE_URL ++ "sentinel2/")%string]
    else
      [(BASE_URL ++ "sentinel2/images/" ++ country ++ "/")%string;
       (BASE_URL ++ "sentinel2/masks/" ++ country ++ "/")%string]
  else [].

(** ** Effects: store, outcomes and the program monad *)

(** Exceptions the program can meet.  [URLError] is the class that
    [download_file] handles itself; [OSError] stands for every other
    exception of a download (a broken read, a destination that cannot be
    opened); [RequestException] is a failed [requests.get]; [KeyError] an
    anchor without [href]. *)
Inductive exn : Type :=
  | ValueError
  | RequestException
  | KeyError
  | URLError
  | OSError.

(** Observable effects, in the order they happen. *)
Inductive event : Type :=
  | EvGet (site : string)                     (* requests.get(site) *)
  | EvMkdir (subdir : string)                 (* Path(subdir).mkdir(...) *)
  | EvUrlopen (url : string)                  (* urllib.request.urlopen(url) *)
  | EvOpen (dst_path : string)                (* open(dst_path, mode='wb') *)
  | EvWrite (dst_path : string) (data : list byte)
  | EvSleep (seconds : nat).                  (* time.sleep(seconds) *)

(** The mutable lists of [download_ai4boundaries] together with the
    effect trace and the files on disk. *)
Record Store : Type := mkStore {
  urls : list string;
  url_fns : list string;
  failed_fns : list string;
  trace : list event;
  disk : list (string * list byte)
}.

Definition set_urls (l : list string) (st : Store) : Store :=
  mkStore l (url_fns st) (failed_fns st) (trace st) (disk st).
Definition set_url_fns (l : list string) (st : Store) : Store :=
  mkStore (urls st) l (failed_fns st) (trace st) (disk st).
Definition set_failed_fns (l : list string) (st : Store) : Store :=
  mkStore (urls st) (url_fns st) l (trace st) (disk st).
Definition emit (e : event) (st : Store) : Store :=
  mkStore (urls st) (url_fns st) (failed_fns st) (trace st ++ [e]) (disk st).
Definition put_file (path : string) (data : list byte) (st : Store) : Store :=
  mkStore (urls st) (url_fns st) (failed_fns st) (trace st)
          ((path, data) :: disk st).

(** The content of [path] on a disk: the latest write wins. *)
Fixpoint read_file (d : list (string * list byte)) (path : string)
  : option (list byte) :=
  match d with
  | [] => None
  | (p, data) :: d' => if (p =? path)%string then Some data else read_file d' path
  end.

(** A store with empty lists and trace, over the files already on disk. *)
Definition initial (d : list (string * list byte)) : Store :=
  mkStore [] [] [] [] d.

Inductive outcome (A : Type) : Type :=
  | Done (a : A)
  | Raised (e : exn)
  | OutOfFuel.
Arguments Done {A} a.
Arguments Raised {A} e.
Arguments OutOfFuel {A}.

Definition M (A : Type) : Type := Store -> outcome A * Store.

Definition ret {A} (a : A) : M A := fun st => (Done a, st).
Definition bind {A B} (m : M A) (k : A -> M B) : M B :=
  fun st =>
    match m st with
    | (Done a, st') => k a st'
    | (Raised e, st') => (Raised e, st')
    | (OutOfFuel, st') => (OutOfFuel, st')
    end.
Definition raise {A} (e : exn) : M A := fun st => (Raised e, st).
Definition out_of_fuel {A} : M A := fun st => (OutOfFuel, st).
Definition gets {A} (f : Store -> A) : M A := fun st => (Done (f st), st).
Definition modify (f : Store -> Store) : M unit := fun st => (Done tt, f st).

(** [try: m  except ...: handler(e)]; the effects of [m] up to the
    exception stay. *)
Definition try_except {A} (m : M A) (handler : exn -> M A) : M A :=
  fun st =>
    match m st with
    | (Raised e, st') => handler e st'
    | r => r
    end.

Notation "x <- c ;; k" := (bind c (fun x => k))
  (at level 61, c at next level, right associativity).
Notation "c ;; k" := (bind c (fun _ => k))
  (at level 61, right associativity).

(** ** The environment *)

(** What one [urlopen(url)] followed by [read()] delivers. *)
Inductive fetch : Type :=
  | Body (data : list byte)
  | FailsURLError          (* raises urllib.error.URLError *)
  | FailsOther.            (* raises an exception that is not a URLError *)

(** The remote server and the local file system, as the program sees them.
    [listing site] is the list of anchors of the page at [site], each with
    its [href] if it has one, or [None] when [requests.get] raises;
    [body url n] is the result of the [n]-th download attempt of [url]
    (counting from 0); [writable dst] says whether [open(dst, 'wb')]
    succeeds and [mkdir_ok] whether a folder can be created. *)
Record World : Type := mkWorld {
  listing : string -> option (list (option string));
  body : string -> nat -> fetch;
  writable : string -> bool;
  mkdir_ok : string -> bool
}.

(** Number of download attempts of [url] made so far. *)
Fixpoint attempts (url : string) (tr : list event) : nat :=
  match tr with
  | [] => 0
  | EvUrlopen u :: tr' => (if (u =? url)%string then 1 else 0) + attempts url tr'
  | _ :: tr' => attempts url tr'
  end.

Section Program.

Variable W : World.

(** *** Primitive operations *)

Definition requests_get (site : string) : M (list (option string)) :=
  fun st =>
    let st' := emit (EvGet site) st in
    match listing W site with
    | Some anchors => (Done anchors, st')
    | None => (Raised RequestException, st')
    end.

Definition urlopen_read (url : string) : M (list byte) :=
  fun st =>
    let st' := emit (EvUrlopen url) st in
    match body W url (attempts url (trace st)) with
    | Body data => (Done data, st')
    | FailsURLError => (Raised URLError, st')
    | FailsOther => (Raised OSError, st')
    end.

Definition open_write (dst_path : string) (data : list byte) : M unit :=
  fun st =>
    let st' := emit (EvOpen dst_path) st in
    if writable W dst_path
    then (Done tt, put_file dst_path data (emit (EvWrite dst_path data) st'))
    else (Raised OSError, st').

Definition mkdir (subdir : string) : M unit :=
  fun st =>
    let st' := emit (EvMkdir subdir) st in
    if mkdir_ok W subdir then (Done tt, st') else (Raised OSError, st').

Definition sleep (seconds : nat) : M unit := modify (emit (EvSleep seconds)).

(** *** [download_file] (lines 14-27) *)

Definition download_file (url dst_path : string) : M unit :=
  try_except
    (data <- urlopen_read url ;;
     open_write dst_path data)
    (fun e =>
       match e with
       | URLError => ret tt          (* print(f"Failed to download ...") *)
       | _ => raise e
       end).

(** *** [scrape] (lines 72-92) *)

(** Lines 84-89: a target ending with a slash. *)
Definition visit_dir (rec : string -> M unit) (site href : string) : M unit :=
  if endswith href "/" then
    let subsite := (site ++ href)%string in
    fun st =>
      if mem subsite (urls st) then (Done tt, st)
      else rec subsite (set_urls (urls st ++ [subsite]) st)
  else ret tt.

(** Line 90: [href.endswith("tif") | href.endswith("nc")]. *)
Definition is_data_file (href : string) : bool :=
  endswith href "tif" || endswith href "nc".

(** Lines 90-92. *)
Definition record_file (site href : string) : M unit :=
  if is_data_file href then
    modify (fun st => set_url_fns (url_fns st ++ [(site ++ href)%string]) st)
  else ret tt.

(** The body of the loop over the anchors; [i.attrs['href']] raises
    [KeyError] on an anchor without the attribute. *)
Definition scrape_link (rec : string -> M unit) (site : string)
    (i : option string) : M unit :=
  match i with
  | None => raise KeyError
  | Some href => visit_dir rec site href ;; record_file site href
  end.

Fixpoint scrape_links (rec : string -> M unit) (site : string)
    (anchors : list (option string)) : M unit :=
  match anchors with
  | [] => ret tt
  | i :: rest => scrape_link rec site i ;; scrape_links rec site rest
  end.

(** [scrape(site)], with [fuel] bounding the depth of the recursion. *)
Fixpoint scrape (fuel : nat) (site : string) : M unit :=
  match fuel with
  | O => out_of_fuel
  | S fuel' =>
      anchors <- requests_get site ;;
      scrape_links (scrape fuel') site anchors
  end.

(** Lines 95-96: [for url in urls: scrape(url)].  The loop walks the list
    by position while [scrape] appends to it, so entries added during the
    loop are reached too; [steps] bounds the number of iterations. *)
Fixpoint scrape_urls (fuel steps : nat) (pos : nat) : M unit :=
  match steps with
  | O => out_of_fuel
  | S steps' =>
      fun st =>
        match nth_error (urls st) pos with
        | None => (Done tt, st)
        | Some url => (scrape fuel url ;; scrape_urls fuel steps' (S pos)) st
        end
  end.

(** *** Folder creation (lines 107-108) *)

Fixpoint make_dirs (l : list string) : M unit :=
  match l with
  | [] => ret tt
  | subdir :: rest => mkdir subdir ;; make_dirs rest
  end.

(** *** Downloads (lines 111-134) *)

(** Lines 113-122. *)
Fixpoint first_pass (dir : string) (fns : list string) : M unit :=
  match fns with
  | [] => ret tt
  | url_fn :: rest =>
      try_except
        (download_file url_fn (fn_of dir url_fn))
        (fun _ =>
           sleep 20 ;;
           modify (fun st => set_failed_fns (failed_fns st ++ [url_fn]) st)) ;;
      first_pass dir rest
  end.

(** Lines 126-134. *)
Fixpoint retry_pass (dir : string) (fns : list string) : M unit :=
  match fns with
  | [] => ret tt
  | url_fn :: rest =>
      try_except
        (download_file url_fn (fn_of dir url_fn))
        (fun _ => ret tt) ;;
      retry_pass dir rest
  end.

Definition download_all (dir : string) : M unit :=
  modify (set_failed_fns []) ;;
  fns <- gets url_fns ;;
  first_pass dir fns ;;
  failed <- gets failed_fns ;;
  retry_pass dir failed.

(** *** [download_ai4boundaries] (lines 30-141) *)

Definition scrape_stage (fuel : nat) (sensor country : string) : M unit :=
  modify (set_urls (select_urls sensor country)) ;;
  modify (set_url_fns []) ;;
  scrape_urls fuel fuel 0.

Definition folder_stage (dir : string) : M unit :=
  l <- gets urls ;;
  make_dirs (subdirs dir l).

Definition download_ai4boundaries (fuel : nat) (dir sensor country : string)
  : M unit :=
  if negb (mem sensor valid_sensors) then raise ValueError
  else if negb (mem country valid_countries) then raise ValueError
  else
    scrape_stage fuel sensor country ;;
    folder_stage dir ;;
    download_all dir.

End Program.

(** ** Fixtures: small worlds used in the examples below *)

Module Fixtures.

(** Every download delivers one byte, every path can be written. *)
Definition one_byte : list byte := [x01].

(** The catalogue root lists the folder [a/] and the file [y.nc]; [a/]
    lists the file [x.tif]; every other page has no anchors. *)
Definition tree_listing (site : string) : option (list (option string)) :=
  if (site =? BASE_URL)%string then Some [Some "a/"; Some "y.nc"]
  else if (site =? BASE_URL ++ "a/")%string then Some [Some "x.tif"]
  else Some [].

Definition tree_world : World :=
  mkWorld tree_listing (fun _ _ => Body one_byte) (fun _ => true) (fun _ => true).

(** The catalogue root lists only a link to its parent folder. *)
Definition parent_listing (site : string) : option (list (option string)) :=
  if (site =? BASE_URL)%string then Some [Some "../"] else Some [].

Definition parent_world : World :=
  mkWorld parent_listing (fun _ _ => Body one_byte) (fun _ => true) (fun _ => true).

(** A server on which the first download attempt of every file raises
    [URLError] and every later attempt delivers the file. *)
Definition flaky_body (url : string) (n : nat) : fetch :=
  match n with
  | O => FailsURLError
  | S _ => Body one_byte
  end.

Definition flaky_world : World :=
  mkWorld (fun _ => Some []) flaky_body (fun _ => true) (fun _ => true).

(** The same, with a first failure that is not a [URLError]. *)
Definition reset_body (url : string) (n : nat) : fetch :=
  match n with
  | O => FailsOther
  | S _ => Body one_byte
  end.

Definition reset_world : World :=
  mkWorld (fun _ => Some []) reset_body (fun _ => true) (fun _ => true).

Definition y_nc : string := (BASE_URL ++ "y.nc")%string.

(** The store at the start of the download stage when [y.nc] is the only
    file found. *)
Definition one_file_store : Store := mkStore [BASE_URL] [y_nc] [] [] [].

End Fixtures.

(** ** Invariants used below *)




(** ** Measures and predicates used by the further properties *)

(** Number of download requests in a trace. *)
Definition is_urlopen (e : event) : bool :=
  match e with
  | EvUrlopen _ => true
  | _ => false
  end.

Definition urlopens (tr : list event) : nat := length (filter is_urlopen tr).

(** Total time slept in a trace. *)
Fixpoint slept (tr : list event) : nat :=
  match tr with
  | [] => 0
  | EvSleep n :: tr' => n + slept tr'
  | _ :: tr' => slept tr'
  end.

(** There is a file at [path]. *)
Definition file_exists (st : Store) (path : string) : Prop :=
  read_file (disk st) path <> None.

(** The shape of the entries of [urls] and of [url_fns]. *)
Definition folder_url (u : string) : Prop :=
  startswith u BASE_URL = true /\ endswith u "/" = true.

Definition file_url (u : string) : Prop :=
  startswith u BASE_URL = true /\ is_data_file u = true.

Definition lists_wellformed (st : Store) : Prop :=
  Forall folder_url (urls st) /\ Forall file_url (url_fns st).

(** What scraping may change between [st0] and [st]: it appends to
    [urls] and [url_fns] and sends requests for listings. *)
Definition scraped_from (st0 st : Store) : Prop :=
  disk st = disk st0 /\
  failed_fns st = failed_fns st0 /\
  (exists sites, trace st = trace st0 ++ map EvGet sites) /\
  (exists l, urls st = urls st0 ++ l) /\
  (exists l, url_fns st = url_fns st0 ++ l).

(** The path an event opens or writes, if it does. *)
Definition written_path (e : event) : option string :=
  match e with
  | EvOpen p => Some p
  | EvWrite p _ => Some p
  | _ => None
  end.

(** The events of a pass that open or write a path do so at the
    translated path of an entry of the list. *)
Definition written_within (dir : string) (fns : list string) (a b : Store)
  : Prop :=
  forall e p,
    In e (trace b) -> written_path e = Some p ->
    In e (trace a) \/ exists u, In u fns /\ p = fn_of dir u.

(** Further small worlds. *)
Module MoreFixtures.

(** No listing can be fetched. *)
Definition offline_world : World :=
  mkWorld (fun _ => None) (fun _ _ => FailsOther)
          (fun _ => true) (fun _ => true).

(** The root page starts with an anchor that has no [href]. *)
Definition named_anchor_world : World :=
  mkWorld (fun _ => Some [None; Some "y.nc"]) (fun _ _ => Body Fixtures.one_byte)
          (fun _ => true) (fun _ => true).

(** The server of [Fixtures.tree_world] with downloads that always break
    with an exception other than [URLError]. *)
Definition broken_world : World :=
  mkWorld Fixtures.tree_listing (fun _ _ => FailsOther)
          (fun _ => true) (fun _ => true).

(** Every page is a flat listing: two data files, a page, a file whose
    name ends with [nc] without being a NetCDF file, and a sort link. *)
Definition flat_hrefs : list string :=
  ["x.tif"; "index.html"; "y.nc"; "settings.jsonc"; "?C=N;O=D"].

Definition flat_world : World :=
  mkWorld (fun _ => Some (map Some flat_hrefs))
          (fun _ _ => Body Fixtures.one_byte) (fun _ => true) (fun _ => true).

End MoreFixtures.

(** * Properties *)

(** ** Strings *)

Section StringFacts.

Lemma append_nil_r (s : string) : (s ++ "")%string = s.
Proof. induction s as [|c s IH]; simpl; [reflexivity | now rewrite IH]. Qed.

Lemma append_assoc (a b c : string) :
  ((a ++ b) ++ c)%string = (a ++ (b ++ c))%string.
Proof. induction a as [|x a IH]; simpl; [reflexivity | now rewrite IH]. Qed.

Lemma append_length (a b : string) :
  String.length (a ++ b) = String.length a + String.length b.
Proof. induction a as [|x a IH]; simpl; [reflexivity | now rewrite IH]. Qed.

Lemma append_inv_head (a b c : string) :
  (a ++ b)%string = (a ++ c)%string -> b = c.
Proof.
  induction a as [|x a IH]; simpl; intros H; [exact H |].
  injection H as H. now apply IH.
Qed.

Lemma prefix_append (a b : string) : prefix a (a ++ b) = true.
Proof.
  induction a as [|x a IH]; simpl.
  - now destruct b.
  - destruct (ascii_dec x x) as [_|N]; [exact IH | now elim N].
Qed.

Lemma prefix_append_l (p a b : string) :
  prefix p a = true -> prefix p (a ++ b) = true.
Proof.
  revert a; induction p as [|x p IH]; intros a H.
  - now destruct (a ++ b)%string.
  - destruct a as [|y a]; simpl in *; [discriminate |].
    destruct (ascii_dec x y); [now apply IH | discriminate].
Qed.

Lemma contains_append_l (p a b : string) :
  contains p a = true -> contains p (a ++ b) = true.
Proof.
  induction a as [|y a IH]; intros H.
  - simpl in H. rewrite orb_false_r in H.
    destruct p; [| discriminate]. now destruct b.
  - cbn [contains] in H. apply orb_true_iff in H.
    change (String y a ++ b)%string with (String y (a ++ b)).
    cbn [contains]. apply orb_true_iff. destruct H as [H|H].
    + left. now apply (prefix_append_l p (String y a) b).
    + right. now apply IH.
Qed.

Lemma contains_append_r (p a b : string) :
  contains p b = true -> contains p (a ++ b) = true.
Proof.
  intros H. induction a as [|y a IH]; [exact H |].
  change (String y a ++ b)%string with (String y (a ++ b)).
  cbn [contains]. rewrite IH. apply orb_true_r.
Qed.

Lemma contains_prefix (p s : string) : prefix p s = true -> contains p s = true.
Proof. intros H. destruct s; cbn [contains]; rewrite H; reflexivity. Qed.

(** Passing over a matched occurrence. *)
Lemma replace_from_skip (old new a r : string) :
  replace_from old new (String.length a) (a ++ r) = replace_from old new 0 r.
Proof.
  induction a as [|x a IH]; simpl.
  - now destruct r.
  - exact IH.
Qed.

(** An occurrence at the head is replaced and the scan goes on behind it. *)
Lemma replace_head (old new r : string) :
  old <> "" ->
  replace old new (old ++ r) = (new ++ replace old new r)%string.
Proof.
  intros Hne. destruct old as [|c o]; [now elim Hne |].
  unfold replace.
  change (String c o ++ r)%string with (String c (o ++ r)).
  cbn [replace_from].
  change (String c (o ++ r)) with (String c o ++ r)%string.
  rewrite prefix_append.
  assert (E : String.length (String c o) - 1 = String.length o)
    by (cbn [String.length]; lia).
  rewrite E, replace_from_skip. reflexivity.
Qed.

(** Without an occurrence nothing is replaced. *)
Lemma replace_absent (old new s : string) :
  contains old s = false -> replace old new s = s.
Proof.
  intros H. destruct old as [|c o].
  - destruct s; discriminate.
  - unfold replace. induction s as [|x s IH]; [reflexivity |].
    cbn [contains] in H. apply orb_false_iff in H as [Hp Hc].
    cbn [replace_from]. rewrite Hp. f_equal. exact (IH Hc).
Qed.

Lemma endswith_refl (s : string) : endswith s s = true.
Proof. destruct s; cbn [endswith]; now rewrite String.eqb_refl. Qed.

Lemma endswith_append (p suf : string) : endswith (p ++ suf) suf = true.
Proof.
  induction p as [|x p IH]; [apply endswith_refl |].
  change (String x p ++ suf)%string with (String x (p ++ suf)).
  cbn [endswith]. rewrite IH. now destruct (_ =? _)%string.
Qed.

Lemma endswith_split (s suf : string) :
  endswith s suf = true -> exists p, s = (p ++ suf)%string.
Proof.
  induction s as [|x s IH]; cbn [endswith]; intros H.
  - destruct (String.eqb_spec "" suf) as [E|]; [| discriminate].
    exists "". now rewrite <- E.
  - destruct (String.eqb_spec (String x s) suf) as [E|].
    + exists "". now rewrite <- E.
    + destruct (IH H) as [p Hp]. exists (String x p). now rewrite Hp.
Qed.

(** A test for a suffix no longer than [suf] only looks at [suf]. *)
Lemma endswith_behind (p suf x : string) :
  String.length x <= String.length suf ->
  endswith (p ++ suf) x = endswith suf x.
Proof.
  intros Hlen. induction p as [|c p IH]; [reflexivity |].
  change (String c p ++ suf)%string with (String c (p ++ suf)).
  cbn [endswith]. rewrite IH.
  destruct (String.eqb_spec (String c (p ++ suf)) x) as [E|]; [| reflexivity].
  apply (f_equal String.length) in E. cbn [String.length] in E.
  rewrite append_length in E. lia.
Qed.

Lemma replace_head_plain (old new r : string) :
  old <> "" -> contains old r = false ->
  replace old new (old ++ r) = (new ++ r)%string.
Proof.
  intros Hne H. rewrite (replace_head _ _ _ Hne).
  now rewrite (replace_absent _ _ _ H).
Qed.

Lemma prefix_split (p s : string) :
  prefix p s = true -> exists r, s = (p ++ r)%string.
Proof.
  revert s. induction p as [|x p IH]; intros s H; [now exists s |].
  destruct s as [|y s]; cbn [prefix] in H; [discriminate |].
  destruct (ascii_dec x y) as [->|]; [| discriminate].
  destruct (IH s H) as [r ->]. now exists r.
Qed.

End StringFacts.

(** ** Path translation *)

Section PathFacts.

Lemma BASE_URL_nonempty : BASE_URL <> "".
Proof. discriminate. Qed.

(** A URL under the base prefix whose remainder holds no further
    occurrence of it: the prefix becomes the root folder. *)
Lemma fn_of_plain (dir r : string) :
  contains BASE_URL r = false ->
  fn_of dir (BASE_URL ++ r) = (root_prefix dir ++ r)%string.
Proof.
  intros H. unfold fn_of.
  exact (replace_head_plain BASE_URL _ r BASE_URL_nonempty H).
Qed.

Lemma subdir_path_plain (dir r : string) :
  contains BASE_URL r = false ->
  contains "DRLL/" (root_prefix dir ++ r) = false ->
  subdir_path dir (BASE_URL ++ r) = (root_prefix dir ++ r)%string.
Proof.
  intros Hb Hd. unfold subdir_path.
  rewrite (replace_head_plain BASE_URL (root_prefix dir) r BASE_URL_nonempty Hb).
  apply replace_absent. exact Hd.
Qed.

(** Where no archive-folder segment is left after the prefix has been
    replaced, the folder translation and the file translation agree. *)
Lemma subdir_path_is_fn_of (dir u : string) :
  contains "DRLL/" (fn_of dir u) = false ->
  subdir_path dir u = fn_of dir u.
Proof. intros H. unfold subdir_path. now apply replace_absent. Qed.

(** The file translation alone is injective on plain remainders. *)
Lemma fn_of_injective (dir r1 r2 : string) :
  contains BASE_URL r1 = false ->
  contains BASE_URL r2 = false ->
  fn_of dir (BASE_URL ++ r1) = fn_of dir (BASE_URL ++ r2) ->
  r1 = r2.
Proof.
  intros H1 H2. rewrite !fn_of_plain by assumption. apply append_inv_head.
Qed.

End PathFacts.

(** *** Removing the archive-folder segment *)

Section RemovalFacts.

(** An occurrence is a piece of the string. *)
Lemma contains_split (sub s : string) :
  contains sub s = true -> exists x y, s = (x ++ sub ++ y)%string.
Proof.
  induction s as [|c s IH]; cbn [contains]; intros H.
  - rewrite orb_false_r in H. destruct (prefix_split _ _ H) as [y Hy].
    exists "", y. exact Hy.
  - apply orb_true_iff in H. destruct H as [H|H].
    + destruct (prefix_split _ _ H) as [y Hy]. exists "", y. exact Hy.
    + destruct (IH H) as (x & y & ->). now exists (String c x), y.
Qed.

Lemma contains_middle (sub x y : string) :
  contains sub (x ++ sub ++ y) = true.
Proof. apply contains_append_r, contains_prefix, prefix_append. Qed.

Lemma contains_trans (a b c : string) :
  contains a b = true -> contains b c = true -> contains a c = true.
Proof.
  intros Hab Hbc.
  destruct (contains_split _ _ Hab) as (x1 & y1 & ->).
  destruct (contains_split _ _ Hbc) as (x2 & y2 & ->).
  rewrite !append_assoc, <- (append_assoc x2 x1).
  apply contains_middle.
Qed.

(** A remainder without [DRLL/] holds no occurrence of the base URL. *)
Lemma no_drll_no_base (r : string) :
  contains "DRLL/" r = false -> contains BASE_URL r = false.
Proof.
  intros H. destruct (contains BASE_URL r) eqn:E; [| reflexivity].
  assert (Hb : contains "DRLL/" BASE_URL = true) by (vm_compute; reflexivity).
  now rewrite (contains_trans _ _ _ Hb E) in H.
Qed.

Lemma prefix_within (p a b : string) :
  prefix p (a ++ b) = true -> String.length p <= String.length a ->
  prefix p a = true.
Proof.
  revert a. induction p as [|x p IH]; intros a H Hlen.
  - now destruct a.
  - destruct a as [|y a]; cbn [String.length] in Hlen; [lia |].
    cbn [append prefix] in H |- *.
    destruct (ascii_dec x y); [| discriminate].
    apply IH; [exact H | lia].
Qed.

(** An occurrence of [DRLL/] that starts before a slash ends at or before
    that slash. *)
Lemma drll_before_slash (q r : string) :
  prefix "DRLL/" ((q ++ "/") ++ r) = true -> 4 <= String.length q.
Proof.
  intros H.
  destruct q as [|c1 [|c2 [|c3 [|c4 q]]]]; cbn [String.length]; try lia;
    cbn [append prefix] in H;
    repeat match type of H with
           | context [ascii_dec ?a ?b] =>
               destruct (ascii_dec a b) as [?|?]; try congruence
           end.
Qed.

(** Removing [DRLL/] from a string that ends with a slash, followed by
    a remainder without [DRLL/], leaves the remainder alone. *)
Lemma remove_drll_before (q r : string) (k : nat) :
  contains "DRLL/" r = false ->
  k <= S (String.length q) ->
  replace_from "DRLL/" "" k ((q ++ "/") ++ r)
  = (replace_from "DRLL/" "" k (q ++ "/") ++ r)%string.
Proof.
  intros Hr.
  assert (Er : replace_from "DRLL/" "" 0 r = r)
    by exact (replace_absent "DRLL/" "" r Hr).
  revert k. induction q as [|c q IH]; intros k Hk.
  - change (("" ++ "/") ++ r)%string with (String "/" r).
    change ("" ++ "/")%string with "/".
    cbn [String.length] in Hk. destruct k as [|[|k]]; [| | lia].
    + cbn [replace_from]. change (prefix "DRLL/" (String "/" r)) with false.
      change (prefix "DRLL/" "/") with false. cbv iota. now rewrite Er.
    + cbn [replace_from]. rewrite Er. reflexivity.
  - change ((String c q ++ "/") ++ r)%string with (String c ((q ++ "/") ++ r)).
    change (String c q ++ "/")%string with (String c (q ++ "/")).
    cbn [replace_from]. cbn [String.length] in Hk. destruct k as [|k].
    + destruct (prefix "DRLL/" (String c ((q ++ "/") ++ r))) eqn:Ep.
      * pose proof (drll_before_slash (String c q) r Ep) as Hlen.
        cbn [String.length] in Hlen.
        assert (Ep' : prefix "DRLL/" (String c (q ++ "/")) = true).
        { apply (prefix_within "DRLL/" (String c (q ++ "/")) r); [exact Ep |].
          cbn [String.length]. rewrite append_length. cbn. lia. }
        rewrite Ep'. cbn [String.length Nat.sub append].
        apply IH. lia.
      * assert (Ep' : prefix "DRLL/" (String c (q ++ "/")) = false).
        { destruct (prefix "DRLL/" (String c (q ++ "/"))) eqn:E; [| reflexivity].
          pose proof (prefix_append_l "DRLL/" (String c (q ++ "/")) r E) as E2.
          cbn [append] in E2. congruence. }
        rewrite Ep'. cbn [append]. f_equal. apply IH. lia.
    + apply IH. lia.
Qed.

Lemma root_prefix_ends_with_slash (dir : string) :
  exists q, root_prefix dir = (q ++ "/")%string.
Proof.
  unfold root_prefix. destruct (endswith dir "/") eqn:E.
  - now apply endswith_split.
  - now exists dir.
Qed.

(** The folder translation of a URL whose remainder holds no [DRLL/]. *)
Lemma subdir_path_remainder (dir r : string) :
  contains "DRLL/" r = false ->
  subdir_path dir (BASE_URL ++ r)
  = (replace "DRLL/" "" (root_prefix dir) ++ r)%string.
Proof.
  intros Hr. unfold subdir_path.
  rewrite (replace_head_plain BASE_URL (root_prefix dir) r BASE_URL_nonempty
             (no_drll_no_base r Hr)).
  destruct (root_prefix_ends_with_slash dir) as [q ->].
  unfold replace. apply remove_drll_before; [exact Hr | lia].
Qed.

End RemovalFacts.

(** C3, as stated, fails: the two distinct URLs [BASE_URL/a/] and
    [BASE_URL/DRLL/a/] both start with the base prefix, and with the root
    folder [/data] both are translated to [/data/a/], because the removal
    of the archive-folder segment erases their only difference. *)
Lemma translation_collapses_two_urls :
  let u1 := (BASE_URL ++ "a/")%string in
  let u2 := (BASE_URL ++ "DRLL/a/")%string in
  u1 <> u2 /\
  startswith u1 BASE_URL = true /\
  startswith u2 BASE_URL = true /\
  subdir_path "/data" u1 = "/data/a/" /\
  subdir_path "/data" u2 = "/data/a/" /\
  subdirs "/data" [u1] = subdirs "/data" [u2].
Proof. cbv zeta. repeat split; try (vm_compute; reflexivity). discriminate. Qed.

(** C3, amended: for every root folder, two distinct URLs under the base
    prefix whose remainders hold no archive-folder segment [DRLL/] are
    translated to two distinct local paths.  (The base prefix contains
    [DRLL/], so such a remainder holds no second occurrence of the prefix
    either.) *)
Theorem subdir_path_injective (dir r1 r2 : string) :
  contains "DRLL/" r1 = false ->
  contains "DRLL/" r2 = false ->
  (BASE_URL ++ r1)%string <> (BASE_URL ++ r2)%string ->
  subdir_path dir (BASE_URL ++ r1) <> subdir_path dir (BASE_URL ++ r2).
Proof.
  intros H1 H2 Hne E. apply Hne.
  rewrite !subdir_path_remainder in E by assumption.
  now rewrite (append_inv_head _ _ _ E).
Qed.

Lemma subdir_path_injective_witness :
  subdir_path "/data/DRLL" (BASE_URL ++ "orthophoto/images/AT/")
  <> subdir_path "/data/DRLL" (BASE_URL ++ "orthophoto/masks/AT/").
Proof.
  apply (subdir_path_injective "/data/DRLL" "orthophoto/images/AT/"
           "orthophoto/masks/AT/"); [reflexivity | reflexivity |].
  vm_compute. discriminate.
Defined.

(** C4 fails on the code: the folders are created under the translation
    that also removes [DRLL/], the files are written under the translation
    that does not.  With the root folder [/data/DRLL/] the folder of
    [BASE_URL/a/] is created at [/data/a/] while the file
    [BASE_URL/a/x.tif] is written to [/data/DRLL/a/x.tif], which is not the
    folder translation [/data/a/x.tif] of that URL. *)
Theorem file_path_outside_created_folder :
  subdirs "/data/DRLL/" [(BASE_URL ++ "a/")%string] = ["/data/a/"] /\
  fn_of "/data/DRLL/" (BASE_URL ++ "a/x.tif") = "/data/DRLL/a/x.tif" /\
  subdir_path "/data/DRLL/" (BASE_URL ++ "a/x.tif") = "/data/a/x.tif" /\
  fn_of "/data/DRLL/" (BASE_URL ++ "a/x.tif")
  <> subdir_path "/data/DRLL/" (BASE_URL ++ "a/x.tif").
Proof. repeat split; try (vm_compute; reflexivity). vm_compute. discriminate. Qed.

(** ** Seed selection and validation *)

Lemma mem_In (x : string) (l : list string) : mem x l = true <-> In x l.
Proof.
  unfold mem. rewrite existsb_exists. split.
  - intros [y [Hy E]]. apply String.eqb_eq in E. now subst.
  - intros H. exists x. split; [exact H | apply String.eqb_refl].
Qed.

Lemma mem_not_In (x : string) (l : list string) : ~ In x l -> mem x l = false.
Proof.
  intros H. destruct (mem x l) eqn:E; [| reflexivity].
  now apply mem_In in E.
Qed.

(** C7: the seed list is a function of [(sensor, country)] alone and is
    the one of section 4.1: the catalogue root for (All, All); the
    sub-tree root for (ortho, All) and (s2, All); for a country [X] other
    than All, the two seeds images/X and masks/X under ortho and under s2,
    and no seed at all under sensor All.  Storing the seeds touches
    neither the trace nor the disk. *)
Theorem select_urls_spec :
  select_urls "All" "All" = [BASE_URL] /\
  select_urls "ortho" "All" = [(BASE_URL ++ "orthophoto/")%string] /\
  select_urls "s2" "All" = [(BASE_URL ++ "sentinel2/")%string] /\
  (forall X, In X valid_countries -> X <> "All" ->
     select_urls "ortho" X =
       [(BASE_URL ++ "orthophoto/images/" ++ X ++ "/")%string;
        (BASE_URL ++ "orthophoto/masks/" ++ X ++ "/")%string] /\
     select_urls "s2" X =
       [(BASE_URL ++ "sentinel2/images/" ++ X ++ "/")%string;
        (BASE_URL ++ "sentinel2/masks/" ++ X ++ "/")%string] /\
     select_urls "All" X = []) /\
  (forall sensor country st,
     let st' := snd (modify (set_urls (select_urls sensor country)) st) in
     urls st' = select_urls sensor country /\
     trace st' = trace st /\ disk st' = disk st).
Proof.
  split; [reflexivity |]. split; [reflexivity |]. split; [reflexivity |].
  split.
  - intros X _ HX. apply String.eqb_neq in HX.
    unfold select_urls. cbn [String.eqb Ascii.eqb Bool.eqb andb].
    change ("All" =? "All")%string with true. cbn [andb].
    rewrite HX. repeat split; reflexivity.
  - intros sensor country st. cbn. repeat split; reflexivity.
Qed.

Lemma select_urls_spec_witness :
  select_urls "ortho" "FR" =
    [(BASE_URL ++ "orthophoto/images/FR/")%string;
     (BASE_URL ++ "orthophoto/masks/FR/")%string] /\
  select_urls "s2" "FR" =
    [(BASE_URL ++ "sentinel2/images/FR/")%string;
     (BASE_URL ++ "sentinel2/masks/FR/")%string] /\
  select_urls "All" "FR" = [].
Proof.
  destruct select_urls_spec as (_ & _ & _ & H & _).
  apply (H "FR"); [simpl; tauto | discriminate].
Defined.

(** C8: with a sensor outside [valid_sensors] or a country outside
    [valid_countries] the call raises [ValueError] and leaves the store as
    it was: no request, no folder, no file, whatever the world and fuel. *)
Theorem invalid_argument_before_io
    (W : World) (fuel : nat) (dir sensor country : string) (st : Store) :
  ~ In sensor valid_sensors \/ ~ In country valid_countries ->
  download_ai4boundaries W fuel dir sensor country st = (Raised ValueError, st).
Proof.
  intros H. unfold download_ai4boundaries.
  destruct (mem sensor valid_sensors) eqn:Es; cbn [negb]; [| reflexivity].
  destruct (mem country valid_countries) eqn:Ec; cbn [negb]; [| reflexivity].
  apply mem_In in Es. apply mem_In in Ec. tauto.
Qed.

Lemma invalid_argument_before_io_witness :
  download_ai4boundaries Fixtures.tree_world 5 "/data" "landsat" "All"
    (initial [])
  = (Raised ValueError, initial []).
Proof.
  apply invalid_argument_before_io.
  left. simpl. intros H. decompose [or] H; discriminate || assumption.
Defined.

(** ** The scraper *)

Section ScrapeFacts.

Variable rec : string -> M unit.

Lemma bind_ret_tt (m : M unit) (st : Store) :
  (m ;; ret tt) st = m st.
Proof.
  unfold bind, ret. destruct (m st) as [[[]| e |] st']; reflexivity.
Qed.

(** A target cannot be both a folder and a data file. *)
Lemma data_file_not_folder (href : string) :
  is_data_file href = true -> endswith href "/" = false.
Proof.
  unfold is_data_file. intros H. apply orb_true_iff in H.
  destruct H as [H|H]; apply endswith_split in H; destruct H as [p ->];
    now rewrite endswith_behind by (cbn; lia).
Qed.

Lemma visit_dir_not_folder (site href : string) (st : Store) :
  endswith href "/" = false -> visit_dir rec site href st = (Done tt, st).
Proof. intros H. unfold visit_dir. now rewrite H. Qed.

Lemma scrape_link_data_file (site href : string) (st : Store) :
  is_data_file href = true ->
  scrape_link rec site (Some href) st =
  (Done tt, set_url_fns (url_fns st ++ [(site ++ href)%string]) st).
Proof.
  intros H. unfold scrape_link, bind.
  rewrite (visit_dir_not_folder _ _ _ (data_file_not_folder _ H)).
  unfold record_file. now rewrite H.
Qed.

Lemma scrape_link_not_data_file (site href : string) (st : Store) :
  is_data_file href = false ->
  scrape_link rec site (Some href) st = visit_dir rec site href st.
Proof.
  intros H. unfold scrape_link, record_file. rewrite H. apply bind_ret_tt.
Qed.

Lemma scrape_link_other (site href : string) (st : Store) :
  endswith href "/" = false -> is_data_file href = false ->
  scrape_link rec site (Some href) st = (Done tt, st).
Proof.
  intros Hd Hf. rewrite (scrape_link_not_data_file _ _ _ Hf).
  now apply visit_dir_not_folder.
Qed.

(** A target ending with a suffix of three or more characters is
    classified the way the suffix alone is. *)
Lemma classified_by_suffix (href suf : string) :
  3 <= String.length suf -> endswith href suf = true ->
  endswith href "/" = endswith suf "/" /\
  is_data_file href = is_data_file suf.
Proof.
  intros Hlen H. apply endswith_split in H. destruct H as [p ->].
  unfold is_data_file.
  rewrite !endswith_behind by (cbn [String.length]; lia). now split.
Qed.

End ScrapeFacts.

(** C5, as stated, fails for parent-folder links: the link [../] in the
    listing of the catalogue root denotes no sub-folder and no data file,
    yet it ends with a slash, so [BASE_URL ++ "../"] is appended to [urls]
    and requested. *)
Lemma parent_link_is_followed :
  let st0 := mkStore [BASE_URL] [] [] [] [] in
  let r := scrape_link (scrape Fixtures.parent_world 3) BASE_URL
             (Some "../") st0 in
  is_data_file "../" = false /\
  fst r = Done tt /\
  urls (snd r) = [BASE_URL; (BASE_URL ++ "../")%string] /\
  trace (snd r) = [EvGet (BASE_URL ++ "../")%string].
Proof. cbv zeta. repeat split; vm_compute; reflexivity. Qed.

(** C5, amended: a target that neither ends with a slash nor ends with
    [tif] or [nc] is ignored: the loop body returns with the store
    unchanged, so nothing is added to [urls] or [url_fns], and [scrape] is
    not called, whatever it would do.  (A parent-folder link that ends
    with a slash is handled as a sub-folder.) *)
Theorem other_links_ignored
    (rec : string -> M unit) (site href : string) (st : Store) :
  endswith href "/" = false ->
  endswith href "tif" = false ->
  endswith href "nc" = false ->
  scrape_link rec site (Some href) st = (Done tt, st) /\
  (forall rest, scrape_links rec site (Some href :: rest) st
                = scrape_links rec site rest st).
Proof.
  intros Hd Ht Hn.
  assert (E : scrape_link rec site (Some href) st = (Done tt, st)).
  { apply scrape_link_other; [exact Hd |].
    unfold is_data_file. now rewrite Ht, Hn. }
  split; [exact E |].
  intros rest. cbn [scrape_links]. unfold bind at 1. now rewrite E.
Qed.

Lemma other_links_ignored_witness :
  let st0 := mkStore [BASE_URL] [] [] [] [] in
  scrape_link (scrape Fixtures.tree_world 3) BASE_URL (Some "?C=N;O=D") st0
  = (Done tt, st0) /\
  (forall rest,
     scrape_links (scrape Fixtures.tree_world 3) BASE_URL
       (Some "?C=N;O=D" :: rest) st0
     = scrape_links (scrape Fixtures.tree_world 3) BASE_URL rest st0).
Proof.
  cbv zeta.
  apply (other_links_ignored (scrape Fixtures.tree_world 3) BASE_URL
           "?C=N;O=D"); reflexivity.
Defined.

(** A listing without folder links: the data files are appended to
    [url_fns] in the order of the listing, nothing else changes. *)
Lemma scrape_links_flat (rec : string -> M unit) (site : string)
    (hrefs : list string) (st : Store) :
  (forall h, In h hrefs -> endswith h "/" = false) ->
  scrape_links rec site (map Some hrefs) st =
  (Done tt,
   mkStore (urls st)
           (url_fns st ++
            map (fun h => (site ++ h)%string)
                (filter (fun h => endswith h "tif" || endswith h "nc") hrefs))
           (failed_fns st) (trace st) (disk st)).
Proof.
  revert st. induction hrefs as [|h hrefs IH]; intros st Hflat.
  - cbn. rewrite app_nil_r. now destruct st.
  - cbn [map scrape_links]. unfold bind at 1.
    assert (Hh : endswith h "/" = false) by (apply Hflat; now left).
    assert (Hrest : forall x, In x hrefs -> endswith x "/" = false)
      by (intros x Hx; apply Hflat; now right).
    cbn [filter]. fold (is_data_file h).
    destruct (is_data_file h) eqn:Ef.
    + rewrite (scrape_link_data_file rec site h st Ef).
      rewrite (IH _ Hrest). unfold set_url_fns.
      cbn [urls url_fns failed_fns trace disk map].
      now rewrite <- app_assoc.
    + rewrite (scrape_link_other rec site h st Hh Ef).
      now rewrite (IH _ Hrest).
Qed.

(** C6, as stated, fails for some unrelated suffixes: the link
    [settings.jsonc] ends with [.jsonc], which is neither of the two data
    formats, yet it ends with the characters [nc] and is appended to
    [url_fns]. *)
Lemma unrelated_suffix_is_recorded :
  let st0 := mkStore [BASE_URL] [] [] [] [] in
  let r := scrape_link (scrape Fixtures.tree_world 3) BASE_URL
             (Some "settings.jsonc") st0 in
  endswith "settings.jsonc" ".jsonc" = true /\
  endswith "settings.jsonc" ".nc" = false /\
  endswith "settings.jsonc" ".tif" = false /\
  fst r = Done tt /\
  url_fns (snd r) = [(BASE_URL ++ "settings.jsonc")%string].
Proof. cbv zeta. repeat split; vm_compute; reflexivity. Qed.

(** C6, amended: a target is recorded as a data file exactly when it ends
    with the characters [tif] or [nc], no dot being required.  Such a
    target has its URL appended to [url_fns] and changes nothing else; any
    other target is left to the folder branch and is not appended.  A
    target ending with a suffix of three or more characters that itself
    ends with neither [/], [tif] nor [nc], such as [.html], changes
    neither [urls] nor [url_fns].  On a listing without folder links,
    [scrape] sends one request and appends to [url_fns], in the order of
    the listing, the URLs of exactly the targets ending with [tif] or
    [nc]. *)
Theorem data_file_classification
    (rec : string -> M unit) (site href : string) (st : Store) :
  (endswith href "tif" = true \/ endswith href "nc" = true ->
   scrape_link rec site (Some href) st =
   (Done tt,
    mkStore (urls st) (url_fns st ++ [(site ++ href)%string])
            (failed_fns st) (trace st) (disk st))) /\
  (endswith href "tif" = false /\ endswith href "nc" = false ->
   scrape_link rec site (Some href) st = visit_dir rec site href st) /\
  (forall suf,
     3 <= String.length suf ->
     endswith suf "/" = false ->
     endswith suf "tif" = false -> endswith suf "nc" = false ->
     endswith href suf = true ->
     scrape_link rec site (Some href) st = (Done tt, st)) /\
  (endswith href ".html" = true ->
   scrape_link rec site (Some href) st = (Done tt, st)) /\
  (forall W fuel hrefs,
     listing W site = Some (map Some hrefs) ->
     (forall h, In h hrefs -> endswith h "/" = false) ->
     scrape W (S fuel) site st =
     (Done tt,
      mkStore (urls st)
              (url_fns st ++
               map (fun h => (site ++ h)%string)
                   (filter (fun h => endswith h "tif" || endswith h "nc") hrefs))
              (failed_fns st) (trace st ++ [EvGet site]) (disk st))).
Proof.
  assert (Hsuf : forall suf,
     3 <= String.length suf ->
     endswith suf "/" = false ->
     endswith suf "tif" = false -> endswith suf "nc" = false ->
     endswith href suf = true ->
     scrape_link rec site (Some href) st = (Done tt, st)).
  { intros suf Hlen Hd Ht Hn H.
    destruct (classified_by_suffix href suf Hlen H) as [E1 E2].
    apply scrape_link_other; [congruence |].
    rewrite E2. unfold is_data_file. now rewrite Ht, Hn. }
  split; [| split; [| split; [| split]]].
  - intros H. apply scrape_link_data_file. unfold is_data_file.
    apply orb_true_iff. exact H.
  - intros [Ht Hn]. apply scrape_link_not_data_file.
    unfold is_data_file. now rewrite Ht, Hn.
  - exact Hsuf.
  - apply (Hsuf ".html"); [cbn; lia | reflexivity ..].
  - intros W fuel hrefs Hl Hflat. cbn [scrape].
    unfold bind, requests_get. rewrite Hl.
    now rewrite (scrape_links_flat _ site hrefs _ Hflat).
Qed.

Lemma data_file_classification_witness :
  let st0 := mkStore [BASE_URL] [] [] [] [] in
  let rec := scrape Fixtures.tree_world 3 in
  scrape_link rec BASE_URL (Some "y.nc") st0 =
    (Done tt, mkStore [BASE_URL] [Fixtures.y_nc] [] [] []) /\
  scrape_link rec BASE_URL (Some "a/") st0 = visit_dir rec BASE_URL "a/" st0 /\
  scrape_link rec BASE_URL (Some "index.html") st0 = (Done tt, st0) /\
  scrape MoreFixtures.flat_world 1 BASE_URL st0 =
    (Done tt,
     mkStore [BASE_URL]
       [(BASE_URL ++ "x.tif")%string; (BASE_URL ++ "y.nc")%string;
        (BASE_URL ++ "settings.jsonc")%string]
       [] [EvGet BASE_URL] []).
Proof.
  cbv zeta.
  pose proof (data_file_classification (scrape Fixtures.tree_world 3)
                BASE_URL "y.nc" (mkStore [BASE_URL] [] [] [] [])) as Hnc.
  pose proof (data_file_classification (scrape Fixtures.tree_world 3)
                BASE_URL "a/" (mkStore [BASE_URL] [] [] [] [])) as Hdir.
  pose proof (data_file_classification (scrape Fixtures.tree_world 3)
                BASE_URL "index.html" (mkStore [BASE_URL] [] [] [] [])) as Hhtml.
  split; [| split; [| split]].
  - apply (proj1 Hnc). right. reflexivity.
  - apply (proj1 (proj2 Hdir)). split; reflexivity.
  - apply (proj1 (proj2 (proj2 (proj2 Hhtml)))). reflexivity.
  - apply (proj2 (proj2 (proj2 (proj2 Hhtml))) MoreFixtures.flat_world 0
             MoreFixtures.flat_hrefs); [reflexivity |].
    intros h Hh. cbn in Hh.
    repeat (destruct Hh as [<-|Hh]; [reflexivity |]). destruct Hh.
Defined.

(** One call of [scrape] on the root of the same server requests every
    folder once and lists the files in depth-first order: the guard of
    line 86 works inside the recursion. *)
Example single_scrape_visits_once :
  let r := scrape Fixtures.tree_world 5 BASE_URL
             (mkStore [BASE_URL] [] [] [] []) in
  fst r = Done tt /\
  trace (snd r) = [EvGet BASE_URL; EvGet (BASE_URL ++ "a/")%string] /\
  url_fns (snd r) =
    [(BASE_URL ++ "a/x.tif")%string; (BASE_URL ++ "y.nc")%string].
Proof. cbv zeta. repeat split; vm_compute; reflexivity. Qed.

(** C1 fails on the code.  On the server whose root lists the folder [a/]
    (holding [x.tif]) and the file [y.nc], the scraping stage requests the
    listing of [a/] twice, once from the recursive call and once from the
    loop over [urls], which reaches the entry appended meanwhile; the file
    list names [a/x.tif] twice. *)
Theorem listed_folder_scraped_twice :
  let r := scrape_stage Fixtures.tree_world 5 "All" "All" (initial []) in
  fst r = Done tt /\
  urls (snd r) = [BASE_URL; (BASE_URL ++ "a/")%string] /\
  trace (snd r) =
    [EvGet BASE_URL; EvGet (BASE_URL ++ "a/")%string;
     EvGet (BASE_URL ++ "a/")%string] /\
  url_fns (snd r) =
    [(BASE_URL ++ "a/x.tif")%string; (BASE_URL ++ "y.nc")%string;
     (BASE_URL ++ "a/x.tif")%string].
Proof. cbv zeta. repeat split; vm_compute; reflexivity. Qed.

(** ** Downloads *)

Section DownloadFacts.

Variable W : World.

(** [download_file] lets no [URLError] out. *)
Lemma download_file_outcome (url dst : string) (st : Store) :
  fst (download_file W url dst st) = Done tt \/
  fst (download_file W url dst st) = Raised OSError.
Proof.
  unfold download_file, try_except, bind, urlopen_read, open_write.
  destruct (body W url (attempts url (trace st))); cbn;
    [destruct (writable W dst); cbn |..]; auto.
Qed.

(** A [URLError] ends [download_file] normally after the request alone. *)
Lemma download_file_urlerror (url dst : string) (st : Store) :
  body W url (attempts url (trace st)) = FailsURLError ->
  download_file W url dst st = (Done tt, emit (EvUrlopen url) st).
Proof.
  intros H. unfold download_file, try_except, bind, urlopen_read.
  now rewrite H.
Qed.

(** Another exception leaves [download_file]. *)
Lemma download_file_other (url dst : string) (st : Store) :
  body W url (attempts url (trace st)) = FailsOther ->
  download_file W url dst st = (Raised OSError, emit (EvUrlopen url) st).
Proof.
  intros H. unfold download_file, try_except, bind, urlopen_read.
  now rewrite H.
Qed.

(** Neither pass lets an exception out, and neither needs fuel. *)
Lemma first_pass_returns (dir : string) (fns : list string) (st : Store) :
  fst (first_pass W dir fns st) = Done tt.
Proof.
  revert st. induction fns as [|u rest IH]; intros st; [reflexivity |].
  cbn [first_pass]. unfold bind at 1, try_except.
  destruct (download_file_outcome u (fn_of dir u) st) as [E|E];
    destruct (download_file W u (fn_of dir u) st) as [o st'];
    cbn in E; subst o; [apply IH |].
  cbn. apply IH.
Qed.

Lemma retry_pass_returns (dir : string) (fns : list string) (st : Store) :
  fst (retry_pass W dir fns st) = Done tt.
Proof.
  revert st. induction fns as [|u rest IH]; intros st; [reflexivity |].
  cbn [retry_pass]. unfold bind at 1, try_except.
  destruct (download_file_outcome u (fn_of dir u) st) as [E|E];
    destruct (download_file W u (fn_of dir u) st) as [o st'];
    cbn in E; subst o; [apply IH |].
  cbn. apply IH.
Qed.

Lemma download_all_returns (dir : string) (st : Store) :
  fst (download_all W dir st) = Done tt.
Proof.
  unfold download_all, bind, modify, gets.
  pose proof (first_pass_returns dir (url_fns (set_failed_fns [] st))
                (set_failed_fns [] st)) as E.
  destruct (first_pass W dir _ _) as [o st1]. cbn in E. subst o.
  apply retry_pass_returns.
Qed.

(** *** The trace only grows *)











End DownloadFacts.

(** The sibling path: a first failure that is not a [URLError] is
    followed by the cool-down, recorded, and retried with success. *)
Example other_failure_is_retried :
  let r := download_all Fixtures.reset_world "/data" Fixtures.one_file_store in
  fst r = Done tt /\
  trace (snd r) =
    [EvUrlopen Fixtures.y_nc; EvSleep 20; EvUrlopen Fixtures.y_nc;
     EvOpen "/data/y.nc"; EvWrite "/data/y.nc" Fixtures.one_byte] /\
  failed_fns (snd r) = [Fixtures.y_nc] /\
  read_file (disk (snd r)) "/data/y.nc" = Some Fixtures.one_byte.
Proof. cbv zeta. repeat split; vm_compute; reflexivity. Qed.

(** A first attempt that raises [URLError] is passed over by the first
    pass: one request, no cool-down, no entry in [failed_fns]. *)
Lemma first_pass_urlerror (W : World) (dir u : string) (rest : list string)
    (st : Store) :
  body W u (attempts u (trace st)) = FailsURLError ->
  first_pass W dir (u :: rest) st
  = first_pass W dir rest (emit (EvUrlopen u) st).
Proof.
  intros H. cbn [first_pass]. unfold bind at 1, try_except.
  now rewrite (download_file_urlerror W u (fn_of dir u) st H).
Qed.

(** An exception that leaves [download_file] in the first pass is followed
    by the cool-down and the URL is appended to [failed_fns]. *)
Lemma first_pass_raised (W : World) (dir u : string) (rest : list string)
    (e : exn) (st st' : Store) :
  download_file W u (fn_of dir u) st = (Raised e, st') ->
  first_pass W dir (u :: rest) st
  = first_pass W dir rest
      (set_failed_fns (failed_fns st' ++ [u]) (emit (EvSleep 20) st')).
Proof.
  intros H. cbn [first_pass]. unfold bind at 1, try_except.
  rewrite H. reflexivity.
Qed.

(** In the retry pass such an exception is dropped: no cool-down, no
    record. *)
Lemma retry_pass_raised (W : World) (dir u : string) (rest : list string)
    (e : exn) (st st' : Store) :
  download_file W u (fn_of dir u) st = (Raised e, st') ->
  retry_pass W dir (u :: rest) st = retry_pass W dir rest st'.
Proof.
  intros H. cbn [retry_pass]. unfold bind at 1, try_except.
  rewrite H. reflexivity.
Qed.

(** C2 fails on the code.  The only file, [y.nc], raises [URLError] at its
    first download attempt and would be delivered at the second.
    [download_file] handles the [URLError] itself, so [download_all] sees
    no failure, makes no second attempt and ends normally with no file at
    the translated path [/data/y.nc]. *)
Theorem urlerror_file_never_written :
  let r := download_all Fixtures.flaky_world "/data" Fixtures.one_file_store in
  body Fixtures.flaky_world Fixtures.y_nc 0 = FailsURLError /\
  body Fixtures.flaky_world Fixtures.y_nc 1 = Body Fixtures.one_byte /\
  writable Fixtures.flaky_world (fn_of "/data" Fixtures.y_nc) = true /\
  fst r = Done tt /\
  fn_of "/data" Fixtures.y_nc = "/data/y.nc" /\
  attempts Fixtures.y_nc (trace (snd r)) = 1 /\
  read_file (disk (snd r)) (fn_of "/data" Fixtures.y_nc) = None.
Proof. cbv zeta. repeat split; vm_compute; reflexivity. Qed.

(** C9 fails on the code, by the same defect.  The first attempt of
    [y.nc] fails with [URLError]; the run of [download_all] consists of that
    one request: no [EvSleep 20] follows, [failed_fns] stays empty and the
    retry pass has nothing to do. *)
Theorem urlerror_failure_without_cooldown :
  let r := download_all Fixtures.flaky_world "/data" Fixtures.one_file_store in
  body Fixtures.flaky_world Fixtures.y_nc 0 = FailsURLError /\
  fst r = Done tt /\
  trace (snd r) = [EvUrlopen Fixtures.y_nc] /\
  ~ In (EvSleep 20) (trace (snd r)) /\
  failed_fns (snd r) = [].
Proof.
  cbv zeta. repeat split; try (vm_compute; reflexivity).
  vm_compute. intros [H|[]]. discriminate.
Qed.

(** ** A root folder whose name contains [ftp] *)

Section FtpRoot.

Variable W : World.












End FtpRoot.



(** * Further properties of the code *)

(** ** What scraping keeps *)

Section ScrapeInvariant.

Variable W : World.

(** [Inv] is a property of the store and [Q] one of the page being
    scraped; the hypotheses say that each step of [scrape] keeps them. *)
Variable Inv : Store -> Prop.
Variable Q : string -> Prop.

Hypothesis Q_sub : forall site href,
  Q site -> endswith href "/" = true -> Q (site ++ href)%string.
Hypothesis Inv_get : forall site st, Inv st -> Inv (emit (EvGet site) st).
Hypothesis Inv_dir : forall site href st,
  Inv st -> Q site -> endswith href "/" = true ->
  mem (site ++ href)%string (urls st) = false ->
  Inv (set_urls (urls st ++ [(site ++ href)%string]) st).
Hypothesis Inv_file : forall site href st,
  Inv st -> Q site -> is_data_file href = true ->
  Inv (set_url_fns (url_fns st ++ [(site ++ href)%string]) st).
Hypothesis Inv_Q : forall st u, Inv st -> In u (urls st) -> Q u.

Lemma scrape_link_inv (rec : string -> M unit) (site : string)
    (i : option string) (st : Store) :
  (forall s st, Q s -> Inv st -> Inv (snd (rec s st))) ->
  Q site -> Inv st -> Inv (snd (scrape_link rec site i st)).
Proof.
  intros Hrec Hsite Hst. destruct i as [href|]; [| exact Hst].
  cbn [scrape_link]. unfold bind.
  assert (Hv : Inv (snd (visit_dir rec site href st))).
  { unfold visit_dir. destruct (endswith href "/") eqn:Ed; [| exact Hst].
    destruct (mem (site ++ href)%string (urls st)) eqn:Em; [exact Hst |].
    apply Hrec; [now apply Q_sub | now apply Inv_dir]. }
  destruct (visit_dir rec site href st) as [[[]| e |] st1]; cbn in Hv;
    [| exact Hv ..].
  unfold record_file. destruct (is_data_file href) eqn:Ef; [| exact Hv].
  cbn. now apply Inv_file.
Qed.

Lemma scrape_links_inv (rec : string -> M unit) (site : string)
    (anchors : list (option string)) (st : Store) :
  (forall s st, Q s -> Inv st -> Inv (snd (rec s st))) ->
  Q site -> Inv st -> Inv (snd (scrape_links rec site anchors st)).
Proof.
  intros Hrec Hsite. revert st.
  induction anchors as [|i rest IH]; intros st Hst; [exact Hst |].
  cbn [scrape_links]. unfold bind.
  pose proof (scrape_link_inv rec site i st Hrec Hsite Hst) as Hl.
  destruct (scrape_link rec site i st) as [[[]| e |] st1]; cbn in Hl;
    [now apply IH | exact Hl ..].
Qed.

Lemma scrape_inv (fuel : nat) (site : string) (st : Store) :
  Q site -> Inv st -> Inv (snd (scrape W fuel site st)).
Proof.
  revert site st. induction fuel as [|fuel IH]; intros site st Hsite Hst;
    [exact Hst |].
  cbn [scrape]. unfold bind, requests_get.
  destruct (listing W site) as [anchors|]; [| now apply Inv_get].
  apply scrape_links_inv; [exact IH | exact Hsite | now apply Inv_get].
Qed.

Lemma scrape_urls_inv (fuel steps pos : nat) (st : Store) :
  Inv st -> Inv (snd (scrape_urls W fuel steps pos st)).
Proof.
  revert pos st. induction steps as [|steps IH]; intros pos st Hst;
    [exact Hst |].
  cbn [scrape_urls].
  destruct (nth_error (urls st) pos) as [url|] eqn:E; [| exact Hst].
  unfold bind.
  pose proof (scrape_inv fuel url st
                (Inv_Q st url Hst (nth_error_In _ _ E)) Hst) as Hs.
  destruct (scrape W fuel url st) as [[[]| e |] st1]; cbn in Hs;
    [now apply IH | exact Hs ..].
Qed.

End ScrapeInvariant.

Section ScrapeShape.

Lemma endswith_append_r (a b suf : string) :
  endswith b suf = true -> endswith (a ++ b) suf = true.
Proof.
  intros H. apply endswith_split in H. destruct H as [p ->].
  rewrite <- append_assoc. apply endswith_append.
Qed.

Lemma is_data_file_append (site href : string) :
  is_data_file href = true -> is_data_file (site ++ href) = true.
Proof.
  unfold is_data_file. intros H. apply orb_true_iff in H.
  apply orb_true_iff. destruct H as [H|H]; [left | right];
    now apply endswith_append_r.
Qed.

Lemma folder_url_sub (site href : string) :
  folder_url site -> endswith href "/" = true -> folder_url (site ++ href).
Proof.
  intros [Hb _] Hd. split.
  - now apply prefix_append_l.
  - now apply endswith_append_r.
Qed.

Lemma seeds_are_folder_urls (sensor country : string) :
  Forall folder_url (select_urls sensor country).
Proof.
  assert (Hb : folder_url BASE_URL) by (split; vm_compute; reflexivity).
  assert (Hs : forall r, endswith r "/" = true -> folder_url (BASE_URL ++ r)).
  { intros r Hr. now apply folder_url_sub. }
  unfold select_urls.
  repeat match goal with
         | |- context [if ?b then _ else _] => destruct b
         end;
    repeat constructor; try exact Hb; apply Hs;
    repeat (apply endswith_append_r); reflexivity.
Qed.

Lemma mem_false_not_In (x : string) (l : list string) :
  mem x l = false -> ~ In x l.
Proof. intros H Hin. apply mem_In in Hin. congruence. Qed.

Lemma seeds_are_distinct (sensor country : string) :
  NoDup (select_urls sensor country).
Proof.
  assert (H1 : forall u : string, NoDup [u])
    by (intros u; constructor; [intros [] | constructor]).
  unfold select_urls.
  repeat match goal with
         | |- context [if ?b then _ else _] => destruct b
         end;
    first [ apply NoDup_nil
          | apply H1
          | constructor; [| apply H1];
            intros [E|[]]; apply append_inv_head in E;
            cbn in E; discriminate ].
Qed.

End ScrapeShape.

(** The shape of the two lists after the scraping stage. *)
Lemma scrape_stage_wellformed
    (W : World) (fuel : nat) (sensor country : string) (st : Store) :
  lists_wellformed (snd (scrape_stage W fuel sensor country st)).
Proof.
  unfold scrape_stage, bind, modify.
  apply (scrape_urls_inv W lists_wellformed folder_url).
  - exact folder_url_sub.
  - intros site s H. exact H.
  - intros site href s [Hu Hf] Hq Hd _. split; [| exact Hf].
    cbn [urls set_urls]. apply Forall_app. split; [exact Hu |].
    constructor; [| constructor]. now apply folder_url_sub.
  - intros site href s [Hu Hf] [Hq _] Hd. split; [exact Hu |].
    cbn [url_fns set_url_fns]. apply Forall_app. split; [exact Hf |].
    constructor; [| constructor]. split.
    + now apply prefix_append_l.
    + now apply is_data_file_append.
  - intros s u [Hu _] Hin. rewrite Forall_forall in Hu. now apply Hu.
  - split; [exact (seeds_are_folder_urls sensor country) | constructor].
Qed.

(** X1: whatever the server answers and however the scraping stage ends,
    every entry of [urls] starts with the base URL and ends with a slash,
    and every entry of [url_fns] starts with the base URL and ends with
    [tif] or [nc]. *)
Theorem scrape_stage_lists_wellformed
    (W : World) (fuel : nat) (sensor country : string) (st : Store) :
  let st' := snd (scrape_stage W fuel sensor country st) in
  Forall (fun u => startswith u BASE_URL = true /\ endswith u "/" = true)
         (urls st') /\
  Forall (fun u => startswith u BASE_URL = true /\
                   (endswith u "tif" = true \/ endswith u "nc" = true))
         (url_fns st').
Proof.
  cbv zeta.
  destruct (scrape_stage_wellformed W fuel sensor country st) as [Hu Hf].
  split; [exact Hu |].
  eapply Forall_impl; [| exact Hf].
  intros u [Hb Hd]. split; [exact Hb |].
  unfold is_data_file in Hd. now apply orb_true_iff in Hd.
Qed.

(** X2: [urls] never holds the same URL twice: the seeds are distinct and
    a sub-folder is appended only when it is not in the list yet. *)
Theorem scrape_stage_urls_nodup
    (W : World) (fuel : nat) (sensor country : string) (st : Store) :
  NoDup (urls (snd (scrape_stage W fuel sensor country st))).
Proof.
  unfold scrape_stage, bind, modify.
  apply (scrape_urls_inv W (fun s => NoDup (urls s)) (fun _ => True)).
  - trivial.
  - intros site s H. exact H.
  - intros site href s H _ _ Hm. cbn [urls set_urls].
    apply NoDup_app; [exact H | constructor; [intros [] | constructor] |].
    intros a Ha [<-|[]]. exact (mem_false_not_In _ _ Hm Ha).
  - intros site href s H _ _. exact H.
  - trivial.
  - exact (seeds_are_distinct sensor country).
Qed.

(** The scraping stage, seen from the store it starts with. *)
Lemma scrape_stage_scraped_from
    (W : World) (fuel : nat) (sensor country : string) (st : Store) :
  scraped_from (set_url_fns [] (set_urls (select_urls sensor country) st))
               (snd (scrape_stage W fuel sensor country st)).
Proof.
  set (st0 := set_url_fns [] (set_urls (select_urls sensor country) st)).
  unfold scrape_stage, bind, modify. fold st0.
  apply (scrape_urls_inv W (scraped_from st0) (fun _ => True)).
  - trivial.
  - intros site s (Hd & Hf & [sites Ht] & Hu & Hn).
    repeat split; try assumption.
    exists (sites ++ [site]). cbn [trace emit]. rewrite Ht, map_app.
    now rewrite app_assoc.
  - intros site href s (Hd & Hf & Ht & [l Hu] & Hn) _ _ _.
    repeat split; try assumption.
    exists (l ++ [(site ++ href)%string]). cbn [urls set_urls].
    now rewrite Hu, app_assoc.
  - intros site href s (Hd & Hf & Ht & Hu & [l Hn]) _ _.
    repeat split; try assumption.
    exists (l ++ [(site ++ href)%string]). cbn [url_fns set_url_fns].
    now rewrite Hn, app_assoc.
  - trivial.
  - repeat split; [exists [] | exists [] | exists []];
      now rewrite app_nil_r.
Qed.

(** X3: however it ends, the scraping stage only sends requests for
    listings: the files on disk and [failed_fns] are as before, the trace
    is continued by [EvGet] events alone, and [urls] is the seed list
    followed by what was discovered. *)
Theorem scrape_stage_only_requests_listings
    (W : World) (fuel : nat) (sensor country : string) (st : Store) :
  let st' := snd (scrape_stage W fuel sensor country st) in
  disk st' = disk st /\
  failed_fns st' = failed_fns st /\
  (exists sites, trace st' = trace st ++ map EvGet sites) /\
  (exists found, urls st' = select_urls sensor country ++ found).
Proof.
  cbv zeta.
  destruct (scrape_stage_scraped_from W fuel sensor country st)
    as (Hd & Hf & Ht & Hu & _).
  repeat split; assumption.
Qed.

(** ** How the call ends early *)

Section EarlyEnd.

Variable W : World.

Lemma valid_arguments_run (fuel : nat) (dir sensor country : string) :
  In sensor valid_sensors -> In country valid_countries ->
  download_ai4boundaries W fuel dir sensor country
  = (scrape_stage W fuel sensor country ;;
     folder_stage W dir ;;
     download_all W dir).
Proof.
  intros Hs Hc. unfold download_ai4boundaries.
  now rewrite (proj2 (mem_In _ _) Hs), (proj2 (mem_In _ _) Hc).
Qed.

Lemma select_urls_All (X : string) :
  X <> "All" -> select_urls "All" X = [].
Proof.
  intros H. apply String.eqb_neq in H. unfold select_urls.
  rewrite H, andb_false_r. reflexivity.
Qed.

Lemma root_prefix_slash (dir : string) :
  endswith dir "/" = false -> root_prefix (dir ++ "/") = root_prefix dir.
Proof.
  intros H. unfold root_prefix. now rewrite H, endswith_append.
Qed.

Lemma first_pass_same_root (d1 d2 : string) (fns : list string) (st : Store) :
  root_prefix d1 = root_prefix d2 ->
  first_pass W d1 fns st = first_pass W d2 fns st.
Proof.
  intros E. revert st. induction fns as [|u rest IH]; intros st; [reflexivity |].
  cbn [first_pass]. unfold fn_of. rewrite E. unfold bind.
  destruct (try_except _ _ st) as [[[]| e |] st1]; [apply IH | reflexivity ..].
Qed.

Lemma retry_pass_same_root (d1 d2 : string) (fns : list string) (st : Store) :
  root_prefix d1 = root_prefix d2 ->
  retry_pass W d1 fns st = retry_pass W d2 fns st.
Proof.
  intros E. revert st. induction fns as [|u rest IH]; intros st; [reflexivity |].
  cbn [retry_pass]. unfold fn_of. rewrite E. unfold bind.
  destruct (try_except _ _ st) as [[[]| e |] st1]; [apply IH | reflexivity ..].
Qed.

Lemma folder_stage_same_root (d1 d2 : string) (st : Store) :
  root_prefix d1 = root_prefix d2 ->
  folder_stage W d1 st = folder_stage W d2 st.
Proof.
  intros E. unfold folder_stage, subdirs, subdirs_replaced. now rewrite E.
Qed.

Lemma download_all_same_root (d1 d2 : string) (st : Store) :
  root_prefix d1 = root_prefix d2 ->
  download_all W d1 st = download_all W d2 st.
Proof.
  intros E. unfold download_all, bind, modify, gets.
  rewrite (first_pass_same_root d1 d2 _ _ E).
  destruct (first_pass W d2 _ _) as [[[]| e |] st3]; [| reflexivity ..].
  now apply retry_pass_same_root.
Qed.

Lemma run_same_root (fuel : nat) (d1 d2 sensor country : string) (st : Store) :
  root_prefix d1 = root_prefix d2 ->
  download_ai4boundaries W fuel d1 sensor country st
  = download_ai4boundaries W fuel d2 sensor country st.
Proof.
  intros E. unfold download_ai4boundaries.
  destruct (negb (mem sensor valid_sensors)); [reflexivity |].
  destruct (negb (mem country valid_countries)); [reflexivity |].
  unfold bind.
  destruct (scrape_stage W fuel sensor country st) as [[[]| e |] st1];
    [| reflexivity ..].
  rewrite (folder_stage_same_root d1 d2 st1 E).
  destruct (folder_stage W d2 st1) as [[[]| e |] st2]; [| reflexivity ..].
  now apply download_all_same_root.
Qed.

End EarlyEnd.

(** X4: an exception raised while scraping ends the whole call with that
    exception and the store of that moment: only listing requests have
    been sent, no folder has been created and no download attempted. *)
Theorem scrape_exception_aborts_call
    (W : World) (fuel : nat) (dir sensor country : string) (e : exn)
    (st st1 : Store) :
  In sensor valid_sensors -> In country valid_countries ->
  scrape_stage W fuel sensor country st = (Raised e, st1) ->
  download_ai4boundaries W fuel dir sensor country st = (Raised e, st1) /\
  disk st1 = disk st /\
  (exists sites, trace st1 = trace st ++ map EvGet sites).
Proof.
  intros Hs Hc H. split.
  - rewrite (valid_arguments_run W fuel dir _ _ Hs Hc).
    unfold bind at 1. now rewrite H.
  - pose proof (scrape_stage_scraped_from W fuel sensor country st) as Hr.
    rewrite H in Hr. destruct Hr as (Hd & _ & Ht & _). now split.
Qed.

Lemma scrape_exception_aborts_call_witness :
  let st1 := mkStore [BASE_URL] [] [] [EvGet BASE_URL] [] in
  download_ai4boundaries MoreFixtures.offline_world 3 "/data" "All" "All"
    (initial [])
  = (Raised RequestException, st1) /\
  disk st1 = disk (initial []) /\
  (exists sites, trace st1 = trace (initial []) ++ map EvGet sites).
Proof.
  cbv zeta.
  apply (scrape_exception_aborts_call MoreFixtures.offline_world 3 "/data"
           "All" "All" RequestException (initial [])).
  - simpl. tauto.
  - simpl. tauto.
  - vm_compute. reflexivity.
Defined.

(** X5: when the listing of the first seed cannot be fetched, the call
    raises the exception of [requests.get] after that one request. *)
Theorem first_listing_unavailable
    (W : World) (fuel : nat) (dir sensor country seed : string)
    (more : list string) (st : Store) :
  In sensor valid_sensors -> In country valid_countries ->
  select_urls sensor country = seed :: more ->
  listing W seed = None ->
  download_ai4boundaries W (S fuel) dir sensor country st
  = (Raised RequestException,
     mkStore (seed :: more) [] (failed_fns st) (trace st ++ [EvGet seed])
             (disk st)).
Proof.
  intros Hs Hc Hseed Hl.
  rewrite (valid_arguments_run W (S fuel) dir _ _ Hs Hc).
  unfold bind at 1, scrape_stage, bind at 1 2, modify. rewrite Hseed.
  cbn [scrape_urls urls set_urls set_url_fns nth_error].
  unfold bind at 1. cbn [scrape]. unfold bind at 1, requests_get.
  rewrite Hl. reflexivity.
Qed.

Lemma first_listing_unavailable_witness :
  download_ai4boundaries MoreFixtures.offline_world 3 "/data" "ortho" "All"
    (initial [])
  = (Raised RequestException,
     mkStore [(BASE_URL ++ "orthophoto/")%string] [] []
             [EvGet (BASE_URL ++ "orthophoto/")%string] []).
Proof.
  apply (first_listing_unavailable MoreFixtures.offline_world 2 "/data"
           "ortho" "All" (BASE_URL ++ "orthophoto/")%string [] (initial [])).
  - simpl. tauto.
  - simpl. tauto.
  - reflexivity.
  - reflexivity.
Defined.

(** X6: an anchor without [href] at the head of the first listing makes
    the call raise [KeyError]; the anchors behind it are not looked at. *)
Theorem anchor_without_href
    (W : World) (fuel : nat) (dir sensor country seed : string)
    (more : list string) (rest : list (option string)) (st : Store) :
  In sensor valid_sensors -> In country valid_countries ->
  select_urls sensor country = seed :: more ->
  listing W seed = Some (None :: rest) ->
  download_ai4boundaries W (S fuel) dir sensor country st
  = (Raised KeyError,
     mkStore (seed :: more) [] (failed_fns st) (trace st ++ [EvGet seed])
             (disk st)).
Proof.
  intros Hs Hc Hseed Hl.
  rewrite (valid_arguments_run W (S fuel) dir _ _ Hs Hc).
  unfold bind at 1, scrape_stage, bind at 1 2, modify. rewrite Hseed.
  cbn [scrape_urls urls set_urls set_url_fns nth_error].
  unfold bind at 1. cbn [scrape]. unfold bind at 1, requests_get.
  rewrite Hl. reflexivity.
Qed.

Lemma anchor_without_href_witness :
  download_ai4boundaries MoreFixtures.named_anchor_world 3 "/data" "s2" "All"
    (initial [])
  = (Raised KeyError,
     mkStore [(BASE_URL ++ "sentinel2/")%string] [] []
             [EvGet (BASE_URL ++ "sentinel2/")%string] []).
Proof.
  apply (anchor_without_href MoreFixtures.named_anchor_world 2 "/data"
           "s2" "All" (BASE_URL ++ "sentinel2/")%string [] [Some "y.nc"]
           (initial [])).
  - simpl. tauto.
  - simpl. tauto.
  - reflexivity.
  - reflexivity.
Defined.

(** X8: with sensor [All] and one country there is no seed, and the call
    ends at once: no request, no folder, no download, the three lists
    empty. *)
Theorem all_sensors_one_country_downloads_nothing
    (W : World) (fuel : nat) (dir X : string) (st : Store) :
  In X valid_countries -> X <> "All" ->
  download_ai4boundaries W (S fuel) dir "All" X st
  = (Done tt, mkStore [] [] [] (trace st) (disk st)).
Proof.
  intros HX Hne.
  assert (Hs : In "All" valid_sensors) by (simpl; tauto).
  rewrite (valid_arguments_run W (S fuel) dir _ _ Hs HX).
  unfold scrape_stage. rewrite (select_urls_All X Hne). reflexivity.
Qed.

Lemma all_sensors_one_country_downloads_nothing_witness :
  download_ai4boundaries Fixtures.tree_world 5 "/data" "All" "FR" (initial [])
  = (Done tt, initial []).
Proof.
  apply (all_sensors_one_country_downloads_nothing Fixtures.tree_world 4
           "/data" "FR" (initial [])).
  - simpl. tauto.
  - discriminate.
Defined.

(** X9: the trailing separator of the root folder is optional: the call
    with [dir] and the call with [dir + '/'] do the same. *)
Theorem trailing_separator_optional
    (W : World) (fuel : nat) (dir sensor country : string) (st : Store) :
  endswith dir "/" = false ->
  download_ai4boundaries W fuel (dir ++ "/") sensor country st
  = download_ai4boundaries W fuel dir sensor country st.
Proof.
  intros H. apply run_same_root. now apply root_prefix_slash.
Qed.

Lemma trailing_separator_optional_witness :
  download_ai4boundaries Fixtures.tree_world 5 "/data/" "All" "All" (initial [])
  = download_ai4boundaries Fixtures.tree_world 5 "/data" "All" "All" (initial []).
Proof.
  apply (trailing_separator_optional Fixtures.tree_world 5 "/data" "All" "All"
           (initial [])).
  reflexivity.
Defined.

(** ** One download and one pass *)

Section PassFacts.

Variable W : World.

(** The four ways [download_file] can go. *)
Lemma download_file_cases (url dst : string) (st : Store) :
  download_file W url dst st =
  match body W url (attempts url (trace st)) with
  | Body data =>
      if writable W dst
      then (Done tt,
            put_file dst data
              (emit (EvWrite dst data)
                 (emit (EvOpen dst) (emit (EvUrlopen url) st))))
      else (Raised OSError, emit (EvOpen dst) (emit (EvUrlopen url) st))
  | FailsURLError => (Done tt, emit (EvUrlopen url) st)
  | FailsOther => (Raised OSError, emit (EvUrlopen url) st)
  end.
Proof.
  unfold download_file, try_except, bind, urlopen_read, open_write.
  destruct (body W url (attempts url (trace st)));
    [destruct (writable W dst) |..]; reflexivity.
Qed.

(** One entry of the first pass. *)
Lemma first_pass_one (dir u : string) (st : Store) :
  first_pass W dir [u] st =
  (Done tt,
   match body W u (attempts u (trace st)) with
   | Body data =>
       if writable W (fn_of dir u)
       then put_file (fn_of dir u) data
              (emit (EvWrite (fn_of dir u) data)
                 (emit (EvOpen (fn_of dir u)) (emit (EvUrlopen u) st)))
       else set_failed_fns (failed_fns st ++ [u])
              (emit (EvSleep 20)
                 (emit (EvOpen (fn_of dir u)) (emit (EvUrlopen u) st)))
   | FailsURLError => emit (EvUrlopen u) st
   | FailsOther =>
       set_failed_fns (failed_fns st ++ [u])
         (emit (EvSleep 20) (emit (EvUrlopen u) st))
   end).
Proof.
  cbn [first_pass]. unfold bind, try_except. rewrite download_file_cases.
  destruct (body W u (attempts u (trace st)));
    [destruct (writable W (fn_of dir u)) |..]; reflexivity.
Qed.

(** One entry of the retry pass. *)
Lemma retry_pass_one (dir u : string) (st : Store) :
  retry_pass W dir [u] st =
  (Done tt,
   match body W u (attempts u (trace st)) with
   | Body data =>
       if writable W (fn_of dir u)
       then put_file (fn_of dir u) data
              (emit (EvWrite (fn_of dir u) data)
                 (emit (EvOpen (fn_of dir u)) (emit (EvUrlopen u) st)))
       else emit (EvOpen (fn_of dir u)) (emit (EvUrlopen u) st)
   | FailsURLError => emit (EvUrlopen u) st
   | FailsOther => emit (EvUrlopen u) st
   end).
Proof.
  cbn [retry_pass]. unfold bind, try_except. rewrite download_file_cases.
  destruct (body W u (attempts u (trace st)));
    [destruct (writable W (fn_of dir u)) |..]; reflexivity.
Qed.

Lemma first_pass_step (dir u : string) (rest : list string) (st : Store) :
  first_pass W dir (u :: rest) st
  = first_pass W dir rest (snd (first_pass W dir [u] st)).
Proof.
  pose proof (first_pass_one dir u st) as H.
  cbn [first_pass] in H |- *. unfold bind in H |- *.
  destruct (try_except _ _ st) as [[[]| e |] st1];
    [reflexivity | discriminate H ..].
Qed.

Lemma retry_pass_step (dir u : string) (rest : list string) (st : Store) :
  retry_pass W dir (u :: rest) st
  = retry_pass W dir rest (snd (retry_pass W dir [u] st)).
Proof.
  pose proof (retry_pass_one dir u st) as H.
  cbn [retry_pass] in H |- *. unfold bind in H |- *.
  destruct (try_except _ _ st) as [[[]| e |] st1];
    [reflexivity | discriminate H ..].
Qed.

(** *** A relation kept by every entry is kept by the passes *)

Section Kept.

Variable dir : string.
Variable P : Store -> Store -> Prop.
Variable ok : string -> Prop.

Hypothesis P_refl : forall st, P st st.
Hypothesis P_trans : forall a b c, P a b -> P b c -> P a c.
Hypothesis P_first : forall u st, ok u -> P st (snd (first_pass W dir [u] st)).
Hypothesis P_retry : forall u st, ok u -> P st (snd (retry_pass W dir [u] st)).

Lemma first_pass_kept (fns : list string) (st : Store) :
  (forall u, In u fns -> ok u) -> P st (snd (first_pass W dir fns st)).
Proof.
  revert st. induction fns as [|u rest IH]; intros st Hok; [apply P_refl |].
  rewrite first_pass_step.
  apply (P_trans _ (snd (first_pass W dir [u] st))).
  - apply P_first, Hok. now left.
  - apply IH. intros v Hv. apply Hok. now right.
Qed.

Lemma retry_pass_kept (fns : list string) (st : Store) :
  (forall u, In u fns -> ok u) -> P st (snd (retry_pass W dir fns st)).
Proof.
  revert st. induction fns as [|u rest IH]; intros st Hok; [apply P_refl |].
  rewrite retry_pass_step.
  apply (P_trans _ (snd (retry_pass W dir [u] st))).
  - apply P_retry, Hok. now left.
  - apply IH. intros v Hv. apply Hok. now right.
Qed.

End Kept.

(** *** Counting requests and sleeping time *)

Lemma urlopens_snoc (tr : list event) (e : event) :
  urlopens (tr ++ [e]) = urlopens tr + (if is_urlopen e then 1 else 0).
Proof.
  unfold urlopens. rewrite filter_app, length_app. cbn [filter].
  now destruct (is_urlopen e).
Qed.

Lemma slept_snoc (tr : list event) (e : event) :
  slept (tr ++ [e]) =
  slept tr + match e with EvSleep n => n | _ => 0 end.
Proof.
  induction tr as [|x tr IH].
  - destruct e; cbn; lia.
  - destruct x; cbn [app slept]; rewrite IH; lia.
Qed.

Lemma first_one_counts (dir u : string) (st : Store) :
  let st1 := snd (first_pass W dir [u] st) in
  (failed_fns st1 = failed_fns st /\ slept (trace st1) = slept (trace st) \/
   failed_fns st1 = failed_fns st ++ [u] /\
   slept (trace st1) = slept (trace st) + 20) /\
  urlopens (trace st1) = S (urlopens (trace st)) /\
  urls st1 = urls st /\ url_fns st1 = url_fns st.
Proof.
  cbv zeta. rewrite first_pass_one. cbn [snd].
  destruct (body W u (attempts u (trace st))) as [data| |];
    [destruct (writable W (fn_of dir u)) |..];
    unfold put_file, emit, set_failed_fns;
    cbn [failed_fns trace urls url_fns];
    rewrite ?urlopens_snoc, ?slept_snoc; cbn [is_urlopen];
    (split; [| split; [lia | split; reflexivity]]);
    [left | right | left | right]; split; (reflexivity || lia).
Qed.

Lemma retry_one_counts (dir u : string) (st : Store) :
  let st1 := snd (retry_pass W dir [u] st) in
  failed_fns st1 = failed_fns st /\
  slept (trace st1) = slept (trace st) /\
  urlopens (trace st1) = S (urlopens (trace st)) /\
  urls st1 = urls st /\ url_fns st1 = url_fns st.
Proof.
  cbv zeta. rewrite retry_pass_one. cbn [snd].
  destruct (body W u (attempts u (trace st))) as [data| |];
    [destruct (writable W (fn_of dir u)) |..];
    unfold put_file, emit, set_failed_fns;
    cbn [failed_fns trace urls url_fns];
    rewrite ?urlopens_snoc, ?slept_snoc; cbn [is_urlopen];
    repeat split; (reflexivity || lia).
Qed.

Lemma first_pass_counts (dir : string) (fns : list string) (st : Store) :
  let st' := snd (first_pass W dir fns st) in
  exists l,
    failed_fns st' = failed_fns st ++ l /\
    incl l fns /\
    length l <= length fns /\
    urlopens (trace st') = urlopens (trace st) + length fns /\
    slept (trace st') = slept (trace st) + 20 * length l /\
    urls st' = urls st /\ url_fns st' = url_fns st.
Proof.
  cbv zeta. revert st. induction fns as [|u rest IH]; intros st.
  - exists []. cbn. rewrite app_nil_r. repeat split; try lia.
    intros x [].
  - rewrite first_pass_step.
    destruct (IH (snd (first_pass W dir [u] st)))
      as (l & Hf & Hi & Hl & Hu & Hs & Hur & Hfn).
    destruct (first_one_counts dir u st) as (Hone & Hu1 & Hur1 & Hfn1).
    rewrite Hf, Hu, Hs, Hur, Hfn, Hu1, Hur1, Hfn1.
    destruct Hone as [[Hf1 Hs1]|[Hf1 Hs1]]; rewrite Hf1, Hs1.
    + exists l. repeat split; cbn [length]; try lia.
      now apply incl_tl.
    + exists (u :: l). rewrite <- app_assoc.
      repeat split; cbn [length]; try lia.
      intros x [<-|Hx]; [now left | right; now apply Hi].
Qed.

Lemma retry_pass_counts (dir : string) (fns : list string) (st : Store) :
  let st' := snd (retry_pass W dir fns st) in
  failed_fns st' = failed_fns st /\
  urlopens (trace st') = urlopens (trace st) + length fns /\
  slept (trace st') = slept (trace st) /\
  urls st' = urls st /\ url_fns st' = url_fns st.
Proof.
  cbv zeta. revert st. induction fns as [|u rest IH]; intros st.
  - cbn. repeat split; lia.
  - rewrite retry_pass_step.
    destruct (IH (snd (retry_pass W dir [u] st)))
      as (Hf & Hu & Hs & Hur & Hfn).
    destruct (retry_one_counts dir u st) as (Hf1 & Hs1 & Hu1 & Hur1 & Hfn1).
    rewrite Hf, Hu, Hs, Hur, Hfn, Hf1, Hs1, Hu1, Hur1, Hfn1.
    repeat split; cbn [length]; lia.
Qed.

Lemma download_all_counts (dir : string) (st : Store) :
  let st' := snd (download_all W dir st) in
  incl (failed_fns st') (url_fns st) /\
  length (failed_fns st') <= length (url_fns st) /\
  urlopens (trace st') =
    urlopens (trace st) + length (url_fns st) + length (failed_fns st') /\
  slept (trace st') = slept (trace st) + 20 * length (failed_fns st') /\
  urls st' = urls st /\ url_fns st' = url_fns st.
Proof.
  cbv zeta. unfold download_all, bind, modify, gets.
  pose proof (first_pass_returns W dir (url_fns (set_failed_fns [] st))
                (set_failed_fns [] st)) as E.
  destruct (first_pass_counts dir (url_fns (set_failed_fns [] st))
              (set_failed_fns [] st)) as (l & Hf & Hi & Hl & Hu & Hs & Hur & Hfn).
  destruct (first_pass W dir _ _) as [o st1]. cbn in E. subst o.
  cbn [snd failed_fns trace urls url_fns set_failed_fns app] in *.
  destruct (retry_pass_counts dir (failed_fns st1) st1)
    as (Hf2 & Hu2 & Hs2 & Hur2 & Hfn2).
  rewrite Hf2, Hu2, Hs2, Hur2, Hfn2, Hf, Hu, Hs.
  repeat split; try assumption; lia.
Qed.

End PassFacts.

(** ** Files and attempts through the download stage *)

Section DiskFacts.

Variable W : World.

Lemma attempts_snoc (v : string) (tr : list event) (e : event) :
  attempts v (tr ++ [e]) =
  attempts v tr +
  match e with
  | EvUrlopen u => if (u =? v)%string then 1 else 0
  | _ => 0
  end.
Proof.
  induction tr as [|x tr IH].
  - destruct e; cbn; lia.
  - destruct x; cbn [app attempts]; rewrite IH; lia.
Qed.

Lemma first_one_attempts (dir u v : string) (st : Store) :
  attempts v (trace (snd (first_pass W dir [u] st))) =
  attempts v (trace st) + (if (u =? v)%string then 1 else 0).
Proof.
  rewrite first_pass_one. cbn [snd].
  destruct (body W u (attempts u (trace st))) as [data| |];
    [destruct (writable W (fn_of dir u)) |..];
    unfold put_file, emit, set_failed_fns; cbn [trace];
    rewrite ?attempts_snoc; lia.
Qed.

Lemma retry_one_attempts (dir u v : string) (st : Store) :
  attempts v (trace (snd (retry_pass W dir [u] st))) =
  attempts v (trace st) + (if (u =? v)%string then 1 else 0).
Proof.
  rewrite retry_pass_one. cbn [snd].
  destruct (body W u (attempts u (trace st))) as [data| |];
    [destruct (writable W (fn_of dir u)) |..];
    unfold put_file, emit, set_failed_fns; cbn [trace];
    rewrite ?attempts_snoc; lia.
Qed.

Lemma first_one_disk (dir u q : string) (st : Store) :
  file_exists st q -> file_exists (snd (first_pass W dir [u] st)) q.
Proof.
  rewrite first_pass_one. cbn [snd]. unfold file_exists.
  destruct (body W u (attempts u (trace st))) as [data| |];
    [destruct (writable W (fn_of dir u)) |..];
    unfold put_file, emit, set_failed_fns; cbn [disk read_file];
    try trivial.
  now destruct (fn_of dir u =? q)%string.
Qed.

Lemma retry_one_disk (dir u q : string) (st : Store) :
  file_exists st q -> file_exists (snd (retry_pass W dir [u] st)) q.
Proof.
  rewrite retry_pass_one. cbn [snd]. unfold file_exists.
  destruct (body W u (attempts u (trace st))) as [data| |];
    [destruct (writable W (fn_of dir u)) |..];
    unfold put_file, emit, set_failed_fns; cbn [disk read_file];
    try trivial.
  now destruct (fn_of dir u =? q)%string.
Qed.

(** A file, once there, stays. *)
Lemma first_pass_keeps_files (dir q : string) (fns : list string) (st : Store) :
  file_exists st q -> file_exists (snd (first_pass W dir fns st)) q.
Proof.
  apply (first_pass_kept W dir
           (fun a b => file_exists a q -> file_exists b q) (fun _ => True));
    [auto | auto | | trivial].
  intros u s _. now apply first_one_disk.
Qed.

Lemma retry_pass_keeps_files (dir q : string) (fns : list string) (st : Store) :
  file_exists st q -> file_exists (snd (retry_pass W dir fns st)) q.
Proof.
  apply (retry_pass_kept W dir
           (fun a b => file_exists a q -> file_exists b q) (fun _ => True));
    [auto | auto | | trivial].
  intros u s _. now apply retry_one_disk.
Qed.

Lemma first_pass_attempts_le (dir v : string) (fns : list string) (st : Store) :
  attempts v (trace st) <= attempts v (trace (snd (first_pass W dir fns st))).
Proof.
  apply (first_pass_kept W dir
           (fun a b => attempts v (trace a) <= attempts v (trace b))
           (fun _ => True)); [lia | lia | | trivial].
  intros u s _. rewrite first_one_attempts. lia.
Qed.

Lemma download_all_keeps_files (dir q : string) (st : Store) :
  file_exists st q -> file_exists (snd (download_all W dir st)) q.
Proof.
  intros Hq. unfold download_all, bind, modify, gets.
  pose proof (first_pass_returns W dir (url_fns (set_failed_fns [] st))
                (set_failed_fns [] st)) as E.
  pose proof (first_pass_keeps_files dir q (url_fns (set_failed_fns [] st))
                (set_failed_fns [] st) Hq) as Hd.
  destruct (first_pass W dir _ _) as [o st1]. cbn in E. subst o.
  now apply retry_pass_keeps_files.
Qed.

(** *** Entries whose later attempts deliver the file *)

Section Delivered.

Variables dir u : string.

Hypothesis later : forall n, 1 <= n -> exists data, body W u n = Body data.
Hypothesis can_write : writable W (fn_of dir u) = true.

Lemma first_one_delivers (st : Store) :
  1 <= attempts u (trace st) ->
  file_exists (snd (first_pass W dir [u] st)) (fn_of dir u).
Proof.
  intros Hk. rewrite first_pass_one. cbn [snd].
  destruct (later _ Hk) as [data ->]. rewrite can_write.
  unfold file_exists, put_file. cbn [disk read_file].
  now rewrite String.eqb_refl.
Qed.

Lemma retry_one_delivers (st : Store) :
  1 <= attempts u (trace st) ->
  file_exists (snd (retry_pass W dir [u] st)) (fn_of dir u).
Proof.
  intros Hk. rewrite retry_pass_one. cbn [snd].
  destruct (later _ Hk) as [data ->]. rewrite can_write.
  unfold file_exists, put_file. cbn [disk read_file].
  now rewrite String.eqb_refl.
Qed.

Lemma retry_pass_delivers (fns : list string) (st : Store) :
  In u fns -> 1 <= attempts u (trace st) ->
  file_exists (snd (retry_pass W dir fns st)) (fn_of dir u).
Proof.
  revert st. induction fns as [|v rest IH]; intros st Hin Hk; [contradiction |].
  rewrite retry_pass_step. destruct Hin as [->|Hin].
  - apply retry_pass_keeps_files. now apply retry_one_delivers.
  - apply IH; [exact Hin |]. rewrite retry_one_attempts. lia.
Qed.

Lemma first_pass_delivers_or_records (fns : list string) (st : Store) :
  body W u 0 <> FailsURLError ->
  In u fns ->
  let st' := snd (first_pass W dir fns st) in
  file_exists st' (fn_of dir u) \/ In u (failed_fns st').
Proof.
  intros H0. cbv zeta. revert st.
  induction fns as [|v rest IH]; intros st Hin; [contradiction |].
  rewrite first_pass_step. destruct Hin as [->|Hin]; [| now apply IH].
  destruct (first_pass_counts W dir rest (snd (first_pass W dir [u] st)))
    as (l & Hf & _).
  pose proof (first_pass_keeps_files dir (fn_of dir u) rest
                (snd (first_pass W dir [u] st))) as Hkeep.
  rewrite Hf. revert Hkeep. rewrite first_pass_one. cbn [snd].
  destruct (attempts u (trace st)) as [|k] eqn:Ek.
  - destruct (body W u 0) as [data| |] eqn:Eb; [| now elim H0 |].
    + rewrite can_write. intros Hkeep. left. apply Hkeep.
      unfold file_exists, put_file. cbn [disk read_file].
      now rewrite String.eqb_refl.
    + intros _. right. unfold set_failed_fns. cbn [failed_fns].
      apply in_or_app. left. apply in_or_app. right. now left.
  - destruct (later (S k)) as [data ->]; [lia |].
    rewrite can_write. intros Hkeep. left. apply Hkeep.
    unfold file_exists, put_file. cbn [disk read_file].
    now rewrite String.eqb_refl.
Qed.

Lemma first_pass_attempted (fns : list string) (st : Store) :
  In u fns -> 1 <= attempts u (trace (snd (first_pass W dir fns st))).
Proof.
  revert st. induction fns as [|v rest IH]; intros st Hin; [contradiction |].
  rewrite first_pass_step. destruct Hin as [->|Hin]; [| now apply IH].
  pose proof (first_pass_attempts_le dir u rest
                (snd (first_pass W dir [u] st))) as Hle.
  rewrite first_one_attempts, String.eqb_refl in Hle. lia.
Qed.

Lemma download_all_delivers (st : Store) :
  body W u 0 <> FailsURLError ->
  In u (url_fns st) ->
  file_exists (snd (download_all W dir st)) (fn_of dir u).
Proof.
  intros H0 Hin. unfold download_all, bind, modify, gets.
  pose proof (first_pass_returns W dir (url_fns (set_failed_fns [] st))
                (set_failed_fns [] st)) as E.
  pose proof (first_pass_delivers_or_records
                (url_fns (set_failed_fns [] st)) (set_failed_fns [] st)
                H0 Hin) as Hor.
  pose proof (first_pass_attempted (url_fns (set_failed_fns [] st))
                (set_failed_fns [] st) Hin) as Hk.
  destruct (first_pass W dir _ _) as [o st1]. cbn in E. subst o.
  cbn [snd] in *. destruct Hor as [Hex|Hf].
  - now apply retry_pass_keeps_files.
  - now apply retry_pass_delivers.
Qed.

End Delivered.

(** *** The folder stage *)

Lemma make_dirs_keeps (l : list string) (st : Store) :
  let st' := snd (make_dirs W l st) in
  disk st' = disk st /\ urls st' = urls st /\ url_fns st' = url_fns st.
Proof.
  cbv zeta. revert st. induction l as [|p l IH]; intros st; [now cbn |].
  cbn [make_dirs]. unfold bind, mkdir.
  destruct (mkdir_ok W p); [| now cbn].
  destruct (IH (emit (EvMkdir p) st)) as (Hd & Hu & Hf).
  now rewrite Hd, Hu, Hf.
Qed.

Lemma make_dirs_all_ok (l : list string) (st : Store) :
  (forall p, In p l -> mkdir_ok W p = true) ->
  make_dirs W l st =
  (Done tt,
   mkStore (urls st) (url_fns st) (failed_fns st)
           (trace st ++ map EvMkdir l) (disk st)).
Proof.
  revert st. induction l as [|p l IH]; intros st Hok.
  - cbn. rewrite app_nil_r. now destruct st.
  - cbn [make_dirs]. unfold bind, mkdir.
    rewrite (Hok p (or_introl eq_refl)).
    rewrite IH by (intros q Hq; apply Hok; now right).
    cbn [urls url_fns failed_fns trace disk emit map].
    now rewrite <- app_assoc.
Qed.

End DiskFacts.

(** ** Which paths are opened for writing *)

Section OpenedPaths.

Variable W : World.

Lemma first_one_written (dir u : string) (st : Store) (e : event) (p : string) :
  In e (trace (snd (first_pass W dir [u] st))) ->
  written_path e = Some p ->
  In e (trace st) \/ p = fn_of dir u.
Proof.
  rewrite first_pass_one. cbn [snd].
  destruct (body W u (attempts u (trace st))) as [data| |];
    [destruct (writable W (fn_of dir u)) |..];
    unfold put_file, emit, set_failed_fns; cbn [trace];
    intros Hin Hp;
    repeat (apply in_app_or in Hin; destruct Hin as [Hin|[<-|[]]]);
    try (now left); cbn [written_path] in Hp; try discriminate Hp;
    right; injection Hp as <-; reflexivity.
Qed.

Lemma retry_one_written (dir u : string) (st : Store) (e : event) (p : string) :
  In e (trace (snd (retry_pass W dir [u] st))) ->
  written_path e = Some p ->
  In e (trace st) \/ p = fn_of dir u.
Proof.
  rewrite retry_pass_one. cbn [snd].
  destruct (body W u (attempts u (trace st))) as [data| |];
    [destruct (writable W (fn_of dir u)) |..];
    unfold put_file, emit, set_failed_fns; cbn [trace];
    intros Hin Hp;
    repeat (apply in_app_or in Hin; destruct Hin as [Hin|[<-|[]]]);
    try (now left); cbn [written_path] in Hp; try discriminate Hp;
    right; injection Hp as <-; reflexivity.
Qed.

Lemma written_within_refl (dir : string) (fns : list string) (st : Store) :
  written_within dir fns st st.
Proof. intros e p H _. now left. Qed.

Lemma written_within_trans (dir : string) (fns : list string) (a b c : Store) :
  written_within dir fns a b -> written_within dir fns b c ->
  written_within dir fns a c.
Proof.
  intros H1 H2 e p Hin Hp.
  destruct (H2 e p Hin Hp) as [Hb|Hex]; [now apply (H1 e p) | now right].
Qed.

Lemma first_pass_written (dir : string) (fns0 fns : list string) (st : Store) :
  incl fns fns0 ->
  written_within dir fns0 st (snd (first_pass W dir fns st)).
Proof.
  intros Hi.
  apply (first_pass_kept W dir (written_within dir fns0) (fun u => In u fns0)).
  - apply written_within_refl.
  - apply written_within_trans.
  - intros u s Hu e p Hin Hp.
    destruct (first_one_written dir u s e p Hin Hp) as [H| ->];
      [now left | right; now exists u].
  - exact Hi.
Qed.

Lemma retry_pass_written (dir : string) (fns0 fns : list string) (st : Store) :
  incl fns fns0 ->
  written_within dir fns0 st (snd (retry_pass W dir fns st)).
Proof.
  intros Hi.
  apply (retry_pass_kept W dir (written_within dir fns0) (fun u => In u fns0)).
  - apply written_within_refl.
  - apply written_within_trans.
  - intros u s Hu e p Hin Hp.
    destruct (retry_one_written dir u s e p Hin Hp) as [H| ->];
      [now left | right; now exists u].
  - exact Hi.
Qed.

Lemma download_all_written (dir : string) (st : Store) :
  written_within dir (url_fns st) st (snd (download_all W dir st)).
Proof.
  unfold download_all, bind, modify, gets.
  pose proof (first_pass_returns W dir (url_fns (set_failed_fns [] st))
                (set_failed_fns [] st)) as E.
  pose proof (first_pass_written dir (url_fns st)
                (url_fns (set_failed_fns [] st)) (set_failed_fns [] st)
                (fun x H => H)) as H1.
  destruct (first_pass_counts W dir (url_fns (set_failed_fns [] st))
              (set_failed_fns [] st)) as (l & Hf & Hi & _).
  destruct (first_pass W dir _ _) as [o st1]. cbn in E. subst o.
  cbn [snd failed_fns url_fns set_failed_fns app] in *.
  apply (written_within_trans dir (url_fns st) _ st1 _).
  - intros e p Hin Hp. now apply (H1 e p).
  - apply retry_pass_written. now rewrite Hf.
Qed.

Lemma make_dirs_trace (l : list string) (st : Store) :
  exists made, trace (snd (make_dirs W l st)) = trace st ++ map EvMkdir made.
Proof.
  revert st. induction l as [|p l IH]; intros st.
  - exists []. cbn. now rewrite app_nil_r.
  - cbn [make_dirs]. unfold bind, mkdir.
    destruct (mkdir_ok W p).
    + destruct (IH (emit (EvMkdir p) st)) as [made E].
      exists (p :: made). rewrite E. cbn [trace emit map].
      now rewrite <- app_assoc.
    + exists [p]. reflexivity.
Qed.

End OpenedPaths.


(** ** Properties of [download_file] and of the download stage *)

(** X11: the body is read before the destination is opened.  When the
    fetch raises, or the destination cannot be opened, no file is written
    or changed; [download_file] then ends normally exactly when the fetch
    raised [URLError], and raises otherwise. *)
Theorem failed_download_leaves_disk
    (W : World) (url dst : string) (st : Store) :
  body W url (attempts url (trace st)) = FailsURLError \/
  body W url (attempts url (trace st)) = FailsOther \/
  writable W dst = false ->
  let r := download_file W url dst st in
  disk (snd r) = disk st /\
  (fst r = Done tt <-> body W url (attempts url (trace st)) = FailsURLError) /\
  (fst r <> Done tt -> fst r = Raised OSError).
Proof.
  intros H. cbv zeta. rewrite download_file_cases.
  destruct (body W url (attempts url (trace st))) as [data| |] eqn:Eb.
  - destruct H as [H|[H|H]]; try discriminate. rewrite H.
    cbn. repeat split; try discriminate; reflexivity.
  - cbn. repeat split; try reflexivity. intros N. now elim N.
  - cbn. repeat split; try discriminate; reflexivity.
Qed.

Lemma failed_download_leaves_disk_witness :
  let st := initial [("/data/y.nc", [x00])] in
  let r := download_file MoreFixtures.offline_world Fixtures.y_nc
             "/data/y.nc" st in
  disk (snd r) = disk st /\
  (fst r = Done tt <->
   body MoreFixtures.offline_world Fixtures.y_nc
     (attempts Fixtures.y_nc (trace st)) = FailsURLError) /\
  (fst r <> Done tt -> fst r = Raised OSError).
Proof.
  cbv zeta.
  apply (failed_download_leaves_disk MoreFixtures.offline_world Fixtures.y_nc
           "/data/y.nc" (initial [("/data/y.nc", [x00])])).
  right. left. reflexivity.
Defined.

(** X12: no exception leaves the download stage, whatever the server and
    the file system do, and the stage changes neither [urls] nor
    [url_fns]. *)
Theorem download_all_never_raises (W : World) (dir : string) (st : Store) :
  fst (download_all W dir st) = Done tt /\
  urls (snd (download_all W dir st)) = urls st /\
  url_fns (snd (download_all W dir st)) = url_fns st.
Proof.
  split; [apply download_all_returns |].
  destruct (download_all_counts W dir st) as (_ & _ & _ & _ & Hu & Hf).
  now split.
Qed.

(** X13: when every folder can be created, the folder stage creates the
    folders of [subdirs dir urls], in that order, and does nothing else. *)
Theorem folder_stage_creates_subdirs (W : World) (dir : string) (st : Store) :
  (forall p, In p (subdirs dir (urls st)) -> mkdir_ok W p = true) ->
  folder_stage W dir st =
  (Done tt,
   mkStore (urls st) (url_fns st) (failed_fns st)
           (trace st ++ map EvMkdir (subdirs dir (urls st))) (disk st)).
Proof.
  intros H. unfold folder_stage, bind, gets. now apply make_dirs_all_ok.
Qed.

Lemma folder_stage_creates_subdirs_witness :
  let st := mkStore [BASE_URL; (BASE_URL ++ "a/")%string] [] [] [] [] in
  subdirs "/data" (urls st) = ["/data/"; "/data/a/"] /\
  folder_stage Fixtures.tree_world "/data" st =
  (Done tt,
   mkStore (urls st) (url_fns st) (failed_fns st)
           (trace st ++ map EvMkdir (subdirs "/data" (urls st))) (disk st)).
Proof.
  cbv zeta. split; [vm_compute; reflexivity |].
  apply (folder_stage_creates_subdirs Fixtures.tree_world "/data"
           (mkStore [BASE_URL; (BASE_URL ++ "a/")%string] [] [] [] [])).
  intros p _. reflexivity.
Defined.

(** X14: the download stage sends one request for every entry of
    [url_fns] and one more for every entry it has put on [failed_fns],
    so at most two for an entry; [failed_fns] only holds entries of
    [url_fns]. *)
Theorem download_all_request_budget (W : World) (dir : string) (st : Store) :
  let st' := snd (download_all W dir st) in
  urlopens (trace st') =
    urlopens (trace st) + length (url_fns st) + length (failed_fns st') /\
  urlopens (trace st') <= urlopens (trace st) + 2 * length (url_fns st) /\
  incl (failed_fns st') (url_fns st).
Proof.
  cbv zeta.
  destruct (download_all_counts W dir st) as (Hi & Hl & Hu & _).
  repeat split; [exact Hu | lia | exact Hi].
Qed.

(** X15: the download stage sleeps twenty seconds for every entry it has
    put on [failed_fns] and never otherwise; the retry pass does not
    sleep. *)
Theorem download_all_cooldown (W : World) (dir : string) (st : Store) :
  let st' := snd (download_all W dir st) in
  slept (trace st') = slept (trace st) + 20 * length (failed_fns st') /\
  (forall fns s, slept (trace (snd (retry_pass W dir fns s))) = slept (trace s)).
Proof.
  cbv zeta. split.
  - now destruct (download_all_counts W dir st) as (_ & _ & _ & Hs & _).
  - intros fns s. now destruct (retry_pass_counts W dir fns s) as (_ & _ & Hs & _).
Qed.

(** X16: the retry pass does its work for failures that are not
    [URLError].  If a listed file can be written at its translated path,
    its first attempt does not raise [URLError] and every later attempt
    delivers a body, then the file is there when the download stage
    ends. *)
Theorem retried_file_is_written
    (W : World) (dir u : string) (st : Store) :
  In u (url_fns st) ->
  body W u 0 <> FailsURLError ->
  (forall n, 1 <= n -> exists data, body W u n = Body data) ->
  writable W (fn_of dir u) = true ->
  file_exists (snd (download_all W dir st)) (fn_of dir u).
Proof.
  intros Hin H0 Hlater Hw. now apply download_all_delivers.
Qed.

Lemma retried_file_is_written_witness :
  file_exists
    (snd (download_all Fixtures.reset_world "/data" Fixtures.one_file_store))
    (fn_of "/data" Fixtures.y_nc).
Proof.
  apply (retried_file_is_written Fixtures.reset_world "/data" Fixtures.y_nc
           Fixtures.one_file_store).
  - left. reflexivity.
  - discriminate.
  - intros [|n] Hn; [lia |]. exists Fixtures.one_byte. reflexivity.
  - reflexivity.
Defined.

(** X17: every path that the download stage opens for writing, or writes,
    is the translated path [fn_of dir u] of an entry [u] of [url_fns],
    as the string handed to [open]. *)
Theorem download_all_opens_only_destinations
    (W : World) (dir : string) (st : Store) (e : event) (p : string) :
  In e (trace (snd (download_all W dir st))) ->
  written_path e = Some p ->
  In e (trace st) \/ exists u, In u (url_fns st) /\ p = fn_of dir u.
Proof. intros Hin Hp. now apply (download_all_written W dir st e p). Qed.

Lemma download_all_opens_only_destinations_witness :
  In (EvOpen "/data/y.nc") (trace Fixtures.one_file_store) \/
  exists u, In u (url_fns Fixtures.one_file_store) /\
            "/data/y.nc" = fn_of "/data" u.
Proof.
  apply (download_all_opens_only_destinations Fixtures.tree_world "/data"
           Fixtures.one_file_store (EvOpen "/data/y.nc") "/data/y.nc").
  - vm_compute. auto.
  - reflexivity.
Defined.

(** X18: the download stage removes no file: a path that holds a file
    before holds one after, possibly with a new content. *)
Theorem download_all_removes_no_file
    (W : World) (dir q : string) (st : Store) :
  file_exists st q -> file_exists (snd (download_all W dir st)) q.
Proof. apply download_all_keeps_files. Qed.

Lemma download_all_removes_no_file_witness :
  let st := mkStore [BASE_URL] [Fixtures.y_nc] [] [] [("/data/y.nc", [x00])] in
  file_exists (snd (download_all MoreFixtures.offline_world "/data" st))
    "/data/y.nc".
Proof.
  cbv zeta.
  apply (download_all_removes_no_file MoreFixtures.offline_world "/data"
           "/data/y.nc"
           (mkStore [BASE_URL] [Fixtures.y_nc] [] [] [("/data/y.nc", [x00])])).
  unfold file_exists. cbn. discriminate.
Defined.

(** ** The whole call and the root folder *)

Section RootFolder.

Variable W : World.

(** The translated path of a URL under the base lies under the root. *)
Lemma fn_of_under_root (dir u : string) :
  startswith u BASE_URL = true ->
  startswith (fn_of dir u) (root_prefix dir) = true.
Proof.
  intros H. destruct (prefix_split _ _ H) as [r ->].
  unfold fn_of. rewrite (replace_head _ _ _ BASE_URL_nonempty).
  apply prefix_append.
Qed.

Lemma contains_append_false_l (p a b : string) :
  contains p (a ++ b) = false -> contains p a = false.
Proof.
  intros H. destruct (contains p a) eqn:E; [| reflexivity].
  now rewrite (contains_append_l _ _ _ E) in H.
Qed.

Lemma folder_stage_keeps (dir : string) (st : Store) :
  let st' := snd (folder_stage W dir st) in
  disk st' = disk st /\ urls st' = urls st /\ url_fns st' = url_fns st.
Proof.
  cbv zeta. unfold folder_stage, bind, gets. apply make_dirs_keeps.
Qed.

End RootFolder.

(** X19: every path string that the call hands to [open] for writing
    starts with the root folder and its separator, however the call ends.
    (This is about the string: a [..] segment further on in it can still
    lead out of the root folder.) *)
Theorem call_opens_only_under_root
    (W : World) (fuel : nat) (dir sensor country : string) (st : Store)
    (e : event) (p : string) :
  In e (trace (snd (download_ai4boundaries W fuel dir sensor country st))) ->
  written_path e = Some p ->
  In e (trace st) \/ startswith p (root_prefix dir) = true.
Proof.
  unfold download_ai4boundaries.
  destruct (negb (mem sensor valid_sensors)); [now left |].
  destruct (negb (mem country valid_countries)); [now left |].
  unfold bind.
  pose proof (scrape_stage_scraped_from W fuel sensor country st) as Hs.
  pose proof (scrape_stage_wellformed W fuel sensor country st) as Hw.
  destruct (scrape_stage W fuel sensor country st) as [o st1].
  destruct Hs as (_ & _ & [sites Ht1] & _). destruct Hw as (_ & Hf1).
  cbn [snd trace set_url_fns set_urls url_fns] in Ht1, Hf1.
  assert (H1 : forall e p, In e (trace st1) -> written_path e = Some p ->
                           In e (trace st)).
  { intros e0 p0 Hin Hp. rewrite Ht1 in Hin. apply in_app_or in Hin.
    destruct Hin as [Hin|Hin]; [exact Hin |].
    apply in_map_iff in Hin. destruct Hin as (x & <- & _). discriminate Hp. }
  destruct o as [[]| e0 |]; cbn [snd];
    [| intros Hin Hp; left; now apply (H1 e p) ..].
  destruct (folder_stage_keeps W dir st1) as (_ & _ & Hf2).
  assert (H2 : forall e p, In e (trace (snd (folder_stage W dir st1))) ->
                           written_path e = Some p -> In e (trace st)).
  { intros e0 p0 Hin Hp. unfold folder_stage, bind, gets in Hin.
    destruct (make_dirs_trace W (subdirs dir (urls st1)) st1) as [made E].
    rewrite E in Hin. apply in_app_or in Hin.
    destruct Hin as [Hin|Hin]; [now apply (H1 e0 p0) |].
    apply in_map_iff in Hin. destruct Hin as (x & <- & _). discriminate Hp. }
  destruct (folder_stage W dir st1) as [o st2]. cbn [snd] in Hf2, H2.
  destruct o as [[]| e0 |]; cbn [snd];
    [| intros Hin Hp; left; now apply (H2 e p) ..].
  intros Hin Hp.
  destruct (download_all_written W dir st2 e p Hin Hp) as [H|(u & Hu & ->)].
  - left. now apply (H2 e p).
  - right. rewrite Hf2 in Hu. rewrite Forall_forall in Hf1.
    destruct (Hf1 u Hu) as [Hb _]. now apply fn_of_under_root.
Qed.

Lemma call_opens_only_under_root_witness :
  In (EvOpen "/data/a/x.tif") (trace (initial [])) \/
  startswith "/data/a/x.tif" (root_prefix "/data") = true.
Proof.
  apply (call_opens_only_under_root Fixtures.tree_world 5 "/data" "All" "All"
           (initial []) (EvOpen "/data/a/x.tif") "/data/a/x.tif").
  - vm_compute. auto 20.
  - reflexivity.
Defined.

(** X20: on plain input the file lands in a folder that was created.
    Let [site] be an entry of [urls] under the base, with no further
    occurrence of the base, whose translation holds neither [ftp] nor
    [DRLL/] and which does not end with [DRLL/].  Then the translation of
    [site] is among the folders to create, and a file [href] listed there
    is written to that folder followed by [href]. *)
Theorem file_lands_in_created_folder
    (dir r href : string) (l : list string) :
  contains BASE_URL (r ++ href) = false ->
  contains "DRLL/" (root_prefix dir ++ r) = false ->
  contains "ftp" (root_prefix dir ++ r) = false ->
  endswith (BASE_URL ++ r) "DRLL/" = false ->
  In (BASE_URL ++ r)%string l ->
  In (root_prefix dir ++ r)%string (subdirs dir l) /\
  fn_of dir ((BASE_URL ++ r) ++ href) = ((root_prefix dir ++ r) ++ href)%string.
Proof.
  intros Hb Hd Hf He Hin.
  pose proof (contains_append_false_l _ _ _ Hb) as Hbr.
  split.
  - unfold subdirs, subdirs_replaced.
    apply in_map_iff. exists (root_prefix dir ++ r)%string. split.
    + now apply replace_absent.
    + apply filter_In. split; [| now rewrite Hf].
      apply in_map_iff. exists (BASE_URL ++ r)%string. split.
      * exact (replace_head_plain BASE_URL _ r BASE_URL_nonempty Hbr).
      * apply filter_In. split; [exact Hin | now rewrite He].
  - rewrite !append_assoc. now apply fn_of_plain.
Qed.

Lemma file_lands_in_created_folder_witness :
  In (root_prefix "/data" ++ "orthophoto/images/AT/")%string
     (subdirs "/data" [BASE_URL; (BASE_URL ++ "orthophoto/images/AT/")%string]) /\
  fn_of "/data" ((BASE_URL ++ "orthophoto/images/AT/") ++ "tile_1.tif")
  = ((root_prefix "/data" ++ "orthophoto/images/AT/") ++ "tile_1.tif")%string.
Proof.
  apply (file_lands_in_created_folder "/data" "orthophoto/images/AT/"
           "tile_1.tif"
           [BASE_URL; (BASE_URL ++ "orthophoto/images/AT/")%string]).
  - reflexivity.
  - reflexivity.
  - reflexivity.
  - vm_compute. reflexivity.
  - right. left. reflexivity.
Defined.

(** X21: failed downloads never abort the call.  Once the scraping stage
    has ended normally and every folder of the list can be created, the
    call ends normally, whatever happens to the downloads. *)
Theorem call_ends_normally
    (W : World) (fuel : nat) (dir sensor country : string) (st st1 : Store) :
  In sensor valid_sensors -> In country valid_countries ->
  scrape_stage W fuel sensor country st = (Done tt, st1) ->
  (forall p, In p (subdirs dir (urls st1)) -> mkdir_ok W p = true) ->
  fst (download_ai4boundaries W fuel dir sensor country st) = Done tt.
Proof.
  intros Hs Hc Hscr Hok.
  rewrite (valid_arguments_run W fuel dir _ _ Hs Hc).
  unfold bind at 1. rewrite Hscr. unfold bind at 1.
  unfold folder_stage, bind at 1, gets.
  rewrite (make_dirs_all_ok W _ st1 Hok).
  apply download_all_returns.
Qed.

Lemma call_ends_normally_witness :
  fst (download_ai4boundaries MoreFixtures.broken_world 3 "/data" "All" "All"
         (initial [])) = Done tt.
Proof.
  apply (call_ends_normally MoreFixtures.broken_world 3 "/data" "All" "All"
           (initial [])
           (snd (scrape_stage MoreFixtures.broken_world 3 "All" "All"
                   (initial [])))).
  - simpl. tauto.
  - simpl. tauto.
  - vm_compute. reflexivity.
  - intros p _. reflexivity.
Defined.

(** ** Repeated links *)

Section RepeatedLinks.

Variable W : World.

Lemma scrape_keeps_url (fuel : nat) (site u : string) (st : Store) :
  In u (urls st) -> In u (urls (snd (scrape W fuel site st))).
Proof.
  apply (scrape_inv W (fun s => In u (urls s)) (fun _ => True)); try trivial.
  intros s href s0 H _ _ _. cbn [urls set_urls]. apply in_or_app. now left.
Qed.

Lemma visit_dir_records (fuel : nat) (site href : string) (st : Store) :
  endswith href "/" = true ->
  In (site ++ href)%string
     (urls (snd (visit_dir (scrape W fuel) site href st))).
Proof.
  intros Hd. unfold visit_dir. rewrite Hd.
  destruct (mem (site ++ href)%string (urls st)) eqn:Em.
  - now apply mem_In.
  - apply scrape_keeps_url. cbn [urls set_urls].
    apply in_or_app. right. now left.
Qed.

Lemma folder_not_data_file (href : string) :
  endswith href "/" = true -> is_data_file href = false.
Proof.
  intros Hd. destruct (is_data_file href) eqn:E; [| reflexivity].
  rewrite (data_file_not_folder _ E) in Hd. discriminate.
Qed.

End RepeatedLinks.

Section RepeatedAnywhere.

Variable W : World.

Lemma scrape_links_app (rec : string -> M unit) (site : string)
    (a b : list (option string)) (st : Store) :
  scrape_links rec site (a ++ b) st
  = (scrape_links rec site a ;; scrape_links rec site b) st.
Proof.
  revert st. induction a as [|i a IH]; intros st; [reflexivity |].
  cbn [app scrape_links]. unfold bind.
  destruct (scrape_link rec site i st) as [[[]| e |] st1];
    [| reflexivity ..].
  rewrite IH. reflexivity.
Qed.

Lemma scrape_links_keeps_url (fuel : nat) (site u : string)
    (anchors : list (option string)) (st : Store) :
  In u (urls st) ->
  In u (urls (snd (scrape_links (scrape W fuel) site anchors st))).
Proof.
  intros H.
  apply (scrape_links_inv (fun s => In u (urls s)) (fun _ => True));
    try trivial.
  - intros s href s0 H0 _ _ _. cbn [urls set_urls]. apply in_or_app. now left.
  - intros s s0 _. apply scrape_keeps_url.
Qed.

(** Once a link to a sub-folder has been processed, the sub-folder is in
    [urls] and stays there for the rest of the listing. *)
Lemma folder_link_recorded (fuel : nat) (site href : string)
    (mid : list (option string)) (st : Store) :
  endswith href "/" = true ->
  In (site ++ href)%string
     (urls (snd (scrape_links (scrape W fuel) site (Some href :: mid) st))).
Proof.
  intros Hd. cbn [scrape_links]. unfold bind.
  pose proof (visit_dir_records W fuel site href st Hd) as Hin.
  rewrite (scrape_link_not_data_file (scrape W fuel) site href st
             (folder_not_data_file href Hd)).
  destruct (visit_dir (scrape W fuel) site href st) as [[[]| e |] st1];
    cbn [snd] in Hin |- *; [| exact Hin ..].
  now apply scrape_links_keeps_url.
Qed.

(** A link to a sub-folder that is in [urls] already is passed over. *)
Lemma known_folder_link_skipped (rec : string -> M unit) (site href : string)
    (rest : list (option string)) (st : Store) :
  endswith href "/" = true ->
  In (site ++ href)%string (urls st) ->
  scrape_links rec site (Some href :: rest) st = scrape_links rec site rest st.
Proof.
  intros Hd Hin. cbn [scrape_links]. unfold bind at 1.
  rewrite (scrape_link_not_data_file rec site href st
             (folder_not_data_file href Hd)).
  unfold visit_dir. now rewrite Hd, (proj2 (mem_In _ _) Hin).
Qed.

End RepeatedAnywhere.

(** X22: a link to a sub-folder that a listing repeats, anywhere further
    on, is followed once: the listing with the second occurrence gives the
    same result as the listing without it, so the repetition changes
    nothing and sends no request. *)
Theorem repeated_folder_link_followed_once
    (W : World) (fuel : nat) (site href : string)
    (pre mid rest : list (option string)) (st : Store) :
  endswith href "/" = true ->
  scrape_links (scrape W fuel) site
    (pre ++ Some href :: mid ++ Some href :: rest) st
  = scrape_links (scrape W fuel) site (pre ++ Some href :: mid ++ rest) st.
Proof.
  intros Hd. rewrite !scrape_links_app. unfold bind at 1 2.
  destruct (scrape_links (scrape W fuel) site pre st) as [[[]| e |] st0];
    [| reflexivity ..].
  change (Some href :: mid ++ Some href :: rest)
    with ((Some href :: mid) ++ Some href :: rest).
  change (Some href :: mid ++ rest) with ((Some href :: mid) ++ rest).
  rewrite !scrape_links_app. unfold bind.
  pose proof (folder_link_recorded W fuel site href mid st0 Hd) as Hin.
  destruct (scrape_links (scrape W fuel) site (Some href :: mid) st0)
    as [[[]| e |] st2]; [| reflexivity ..].
  cbn [snd] in Hin. now apply known_folder_link_skipped.
Qed.

Lemma repeated_folder_link_followed_once_witness :
  let st := mkStore [BASE_URL] [] [] [] [] in
  scrape_links (scrape Fixtures.tree_world 3) BASE_URL
    ([Some "index.html"] ++ Some "a/" :: [Some "y.nc"] ++ Some "a/" ::
     [Some "x.tif"]) st
  = scrape_links (scrape Fixtures.tree_world 3) BASE_URL
      ([Some "index.html"] ++ Some "a/" :: [Some "y.nc"] ++ [Some "x.tif"]) st.
Proof.
  cbv zeta.
  apply (repeated_folder_link_followed_once Fixtures.tree_world 3 BASE_URL
           "a/" [Some "index.html"] [Some "y.nc"] [Some "x.tif"]
           (mkStore [BASE_URL] [] [] [] [])).
  reflexivity.
Defined.
